(** * MedicalSeg: intensity normalizers and the evaluation driver

    A shallow embedding of [tools/preprocess_utils/values.py] and
    [medicalseg/core/val.py].

    - float64 voxels are Rocq's primitive binary64 floats ([PrimFloat.float]);
      equality on them is bit equality up to the payload of a NaN;
    - the elements of an integer array are integers ([Z]); the array's
      fixed-width dtype decides what a store into it or arithmetic on it
      keeps of them;
    - an ndarray is the list of its elements in memory order (every operation
      of the two files is elementwise, so the shape plays no role);
    - Python objects that are mutated or aliased live in a heap of cells and
      are passed by reference;
    - Python exceptions are values of an error monad. *)

From Stdlib Require Import ZArith Lia Bool List String Ascii.
From Stdlib Require Import Floats.
From Stdlib Require Import DecimalString DecimalNat.
From stdpp Require Import base option list gmap strings.

Local Open Scope Z_scope.

(** ** Python exceptions *)

Inductive exn : Type :=
| IndexError
| TypeError
| AttributeError
| ZeroDivisionError
| AssertionError
| NameError
| ValueError
| OverflowError.

Inductive result (A : Type) : Type :=
| Ok (a : A)
| Raise (e : exn).
Arguments Ok {A} a.
Arguments Raise {A} e.

Definition is_ok {A : Type} (r : result A) : bool :=
  match r with Ok _ => true | Raise _ => false end.

(** ** numpy's float64 kernels, one element at a time *)

Module Npy.

(** [np.finfo(np.float64).max] and [.min]. *)
Definition finfo_max : float := 0x1.fffffffffffffp+1023%float.
Definition finfo_min : float := (- finfo_max)%float.

(** The float loops of numpy's [clip] ufunc: a NaN element stays a NaN,
    otherwise [MAX(a,b) = a > b ? a : b] and [MIN(a,b) = a < b ? a : b]. *)
Definition npy_max (a b : float) : float :=
  if is_nan a then a else if (b <? a)%float then a else b.

Definition npy_min (a b : float) : float :=
  if is_nan a then a else if (a <? b)%float then a else b.

Definition npy_clip (x lo hi : float) : float :=
  npy_min (npy_max x lo) hi.

(** [np.nan_to_num(x, nan=v)] on one element, with [posinf] and [neginf]
    left at their defaults: the three masks are taken from the input, then
    NaN becomes [v], and the infinities the extreme finite values. *)
Definition nan_to_num1 (v x : float) : float :=
  if is_nan x then v
  else if (x =? infinity)%float then finfo_max
  else if (x =? neg_infinity)%float then finfo_min
  else x.

Definition subtract (a : list float) (c : float) : list float :=
  map (fun x => (x - c)%float) a.

Definition true_divide (a : list float) (c : float) : list float :=
  map (fun x => (x / c)%float) a.

Definition clip (a : list float) (lo hi : float) : list float :=
  map (fun x => npy_clip x lo hi) a.

Definition nan_to_num (a : list float) (v : float) : list float :=
  map (nan_to_num1 v) a.

(** *** Integer arrays *)

(** numpy's fixed-width integer dtypes. *)
Inductive int_dtype : Type :=
| int8 | int16 | int32 | int64
| uint8 | uint16 | uint32 | uint64.

Definition bits (t : int_dtype) : Z :=
  match t with
  | int8 | uint8 => 8
  | int16 | uint16 => 16
  | int32 | uint32 => 32
  | int64 | uint64 => 64
  end.

Definition is_signed (t : int_dtype) : bool :=
  match t with
  | int8 | int16 | int32 | int64 => true
  | uint8 | uint16 | uint32 | uint64 => false
  end.

(** [np.iinfo(t).min] and [.max]. *)
Definition iinfo_min (t : int_dtype) : Z :=
  if is_signed t then - 2 ^ (bits t - 1) else 0.

Definition iinfo_max (t : int_dtype) : Z :=
  if is_signed t then 2 ^ (bits t - 1) - 1 else 2 ^ bits t - 1.

Definition in_range (t : int_dtype) (x : Z) : bool :=
  (iinfo_min t <=? x) && (x <=? iinfo_max t).

(** The value of [t] congruent to [x] modulo [2 ^ bits]: what arithmetic in
    [t] keeps of an exact result. *)
Definition wrap (t : int_dtype) (x : Z) : Z :=
  (x - iinfo_min t) mod 2 ^ bits t + iinfo_min t.

(** The major version of numpy, where the two differ on a Python int that
    does not fit the dtype. *)
Inductive numpy_version : Type :=
| Numpy1
| Numpy2.

(** A Python int stored into an array of dtype [t]. A value in range is
    stored as it is. One out of range raises [OverflowError] under numpy 2;
    numpy 1 wraps it around when it fits a C long (taken as 64 bits) and
    raises otherwise. *)
Definition cast_int (nv : numpy_version) (t : int_dtype) (x : Z) : result Z :=
  if in_range t x then Ok x
  else match nv with
       | Numpy2 => Raise OverflowError
       | Numpy1 => if in_range int64 x then Ok (wrap t x) else Raise OverflowError
       end.

(** An integer as a float64: the nearest double. *)
Definition int_to_float64 (n : Z) : float :=
  SF2Prim (binary_normalize prec emax n 0 false).

End Npy.

(** ** The monad of Python computations *)

(** State and exceptions: a computation reads and writes a state [S] and
    either returns or raises. *)
Definition M (S A : Type) : Type := S -> result (A * S).

Definition ret {S A : Type} (a : A) : M S A := fun s => Ok (a, s).

Definition bind {S A B : Type} (m : M S A) (k : A -> M S B) : M S B :=
  fun s => match m s with
           | Ok (a, s') => k a s'
           | Raise e => Raise e
           end.

Definition raise {S A : Type} (e : exn) : M S A := fun _ => Raise e.

Definition lift {S A : Type} (r : result A) : M S A :=
  fun s => match r with Ok a => Ok (a, s) | Raise e => Raise e end.

Declare Scope py_scope.
Delimit Scope py_scope with py.
Notation "'let*' x ':=' m 'in' k" := (bind m (fun x => k))
  (at level 10, x name, m at level 100, k at level 200) : py_scope.
Notation "m ;;; k" := (bind m (fun _ => k))
  (at level 100, k at level 200, right associativity) : py_scope.
Local Open Scope py_scope.

(** ** The heap of Python objects *)

(** What the functions of [values.py] can be handed: an ndarray of the
    backend, or a plain Python list. [E] is the element type. *)
Inductive pyobj (E : Type) : Type :=
| NdArray (data : list E)
| PyList (items : list E).
Arguments NdArray {E} data.
Arguments PyList {E} items.

Definition ref : Type := nat.

(** A heap is the list of its cells; a reference is an index into it. *)
Definition heap (E : Type) : Type := list (pyobj E).

(** A reference that points nowhere cannot be written in Python; the model
    reports it as a [NameError]. *)
Definition deref {E : Type} (r : ref) : M (heap E) (pyobj E) :=
  fun h => match h !! r with
           | Some o => Ok (o, h)
           | None => Raise NameError
           end.

Definition alloc {E : Type} (o : pyobj E) : M (heap E) ref :=
  fun h => Ok (length h, h ++ [o]).

Definition assign {E : Type} (r : ref) (o : pyobj E) : M (heap E) unit :=
  fun h => match h !! r with
           | Some _ => Ok (tt, <[r := o]> h)
           | None => Raise NameError
           end.

(** [for x in xs: body(x)] *)
Fixpoint for_each {S A : Type} (xs : list A) (body : A -> M S unit) : M S unit :=
  match xs with
  | [] => ret tt
  | x :: xs' => body x ;;; for_each xs' body
  end.

(** [isinstance(o, np.ndarray)] *)
Definition isinstance_ndarray {E : Type} (o : pyobj E) : bool :=
  match o with NdArray _ => true | PyList _ => false end.

(** [np.array(o)]: the elements of [o] in a new ndarray. *)
Definition np_array {E : Type} (o : pyobj E) : pyobj E :=
  match o with NdArray d => NdArray d | PyList l => NdArray l end.

Definition data_of {E : Type} (o : pyobj E) : list E :=
  match o with NdArray d => d | PyList l => l end.

(** ** [tools/preprocess_utils/values.py] *)

Module Values.

(** The value of [label == key]: numpy compares elementwise and yields a
    boolean mask; a Python list is never equal to an int, so the comparison
    is the Python bool [False]. *)
Inductive index : Type :=
| Mask (m : list bool)
| PyBool (b : bool).

Definition py_eq (o : pyobj Z) (key : Z) : index :=
  match o with
  | NdArray d => Mask (map (fun x => Z.eqb x key) d)
  | PyList _ => PyBool false
  end.

(** The selected elements of an array overwritten by [v], an element of the
    array's dtype. *)
Fixpoint masked_assign (d : list Z) (m : list bool) (v : Z) : list Z :=
  match d, m with
  | x :: d', b :: m' => (if b then v else x) :: masked_assign d' m' v
  | _, _ => d
  end.

(** [o[ix] = val], where the ndarrays are of the integer dtype [t]. An
    ndarray is fixed-width: the Python int [val] is first converted to [t]
    (whatever the mask selects), which fails or wraps around when it does
    not fit, see [Npy.cast_int]. A list holds any Python int; a Python bool
    is an int, so on a list [l[False] = val] is [l[0] = val] and
    [l[True] = val] is [l[1] = val], an [IndexError] past the end. On an
    ndarray a boolean scalar selects all or nothing. A list cannot be
    indexed by an array. *)
Definition setitem (nv : Npy.numpy_version) (t : Npy.int_dtype)
           (o : pyobj Z) (ix : index) (val : Z) : result (pyobj Z) :=
  match o, ix with
  | NdArray d, Mask m =>
      match Npy.cast_int nv t val with
      | Ok v => Ok (NdArray (masked_assign d m v))
      | Raise e => Raise e
      end
  | NdArray d, PyBool b =>
      match Npy.cast_int nv t val with
      | Ok v => Ok (NdArray (if b then map (fun _ => v) d else d))
      | Raise e => Raise e
      end
  | PyList l, PyBool b =>
      let i := if b then 1%nat else 0%nat in
      if (i <? length l)%nat then Ok (PyList (<[i := val]> l)) else Raise IndexError
  | PyList _, Mask _ => Raise TypeError
  end.

(** [map_dict.items()]: the pairs in the dict's iteration order; the default
    [map_dict=None] has no [items]. *)
Definition dict_items (map_dict : option (list (Z * Z))) : M (heap Z) (list (Z * Z)) :=
  match map_dict with
  | Some kvs => ret kvs
  | None => raise AttributeError
  end.

(** [label[label == key] = val], in place. *)
Definition remap_pass (nv : Npy.numpy_version) (t : Npy.int_dtype)
           (label : ref) (kv : Z * Z) : M (heap Z) unit :=
  let* o := deref label in
  match setitem nv t o (py_eq o (fst kv)) (snd kv) with
  | Ok o' => assign label o'
  | Raise e => raise e
  end.

(** [label_remap(label, map_dict)] under numpy [nv], where an ndarray
    [label] is of the integer dtype [t]. The converted array is bound to
    [image], which nothing reads; the loop and the [return] use [label]. *)
Definition label_remap (nv : Npy.numpy_version) (t : Npy.int_dtype)
           (label : ref) (map_dict : option (list (Z * Z))) : M (heap Z) ref :=
  let* o := deref label in
  (if negb (isinstance_ndarray o)
   then (let* image := alloc (np_array o) in ret tt)
   else ret tt) ;;;
  let* items := dict_items map_dict in
  for_each items (remap_pass nv t label) ;;;
  ret label.

(** [Normalize(image, min_val, max_val)]. The arithmetic of line 51 builds a
    new array and rebinds [image] to it; [np.clip(..., out=image)] then
    writes into that new array. *)
Definition Normalize (image : ref) (min_val max_val : float) : M (heap float) ref :=
  let* o := deref image in
  let* image := (if negb (isinstance_ndarray o) then alloc (np_array o) else ret image) in
  let* o := deref image in
  let* image :=
    alloc (NdArray (Npy.true_divide (Npy.subtract (data_of o) min_val)
                                    (max_val - min_val)%float)) in
  let* o := deref image in
  assign image (NdArray (Npy.clip (data_of o) 0 1)) ;;;
  ret image.

(** [Normalize(image, min_val, max_val)] on an ndarray of the integer dtype
    [t] with Python int bounds: the values of the float64 array it returns.
    In [image - min_val] the Python int takes the array's dtype and the
    difference is computed in that dtype, modulo [2 ^ bits]; the division
    by [max_val - min_val], a Python int, is carried out in float64. A bound
    [min_val] that [t] cannot hold raises [OverflowError] (numpy 2; numpy 1
    widens the array instead; the two agree whenever [t] holds [min_val]). *)
Definition Normalize_int (t : Npy.int_dtype) (data : list Z)
           (min_val max_val : Z) : result (list float) :=
  if Npy.in_range t min_val then
    Ok (Npy.clip
          (Npy.true_divide
             (map (fun x => Npy.int_to_float64 (Npy.wrap t (x - min_val))) data)
             (Npy.int_to_float64 (max_val - min_val)))
          0 1)
  else Raise OverflowError.

(** [HUNorm(image, HU_min, HU_max, HU_nan)]. [np.nan_to_num(copy=False)]
    writes into the array it is given and returns it. *)
Definition HUNorm (image : ref) (HU_min HU_max HU_nan : float) : M (heap float) ref :=
  let* o := deref image in
  let* image := (if negb (isinstance_ndarray o) then alloc (np_array o) else ret image) in
  let* o := deref image in
  assign image (NdArray (Npy.nan_to_num (data_of o) HU_nan)) ;;;
  let* o := deref image in
  let* image :=
    alloc (NdArray (Npy.true_divide (Npy.subtract (data_of o) HU_min)
                                    (HU_max - HU_min)%float)) in
  let* o := deref image in
  assign image (NdArray (Npy.clip (data_of o) 0 1)) ;;;
  ret image.

(** The defaults of [HUNorm]'s signature. *)
Definition HU_min_default : float := (-1000)%float.
Definition HU_max_default : float := 600%float.
Definition HU_nan_default : float := (-2000)%float.

End Values.

(** ** [medicalseg/core/val.py] *)

Module Val.

(** A Python number as [evaluate] holds it: the built-in [float], or numpy's
    [float64] scalar (what [np.mean] returns and what an addition with one
    yields). They differ in how a division by zero ends. *)
Inductive pynum : Type :=
| PyFloat (x : float)
| NpFloat64 (x : float).

Definition float_of (a : pynum) : float :=
  match a with PyFloat x => x | NpFloat64 x => x end.

(** The double nearest to a Python int. *)
Definition float_of_int (n : Z) : float :=
  SF2Prim (binary_normalize prec emax n 0 false).

(** [a += b] with [b] a numpy scalar or one-element array. *)
Definition iadd_np (a : pynum) (b : float) : pynum :=
  NpFloat64 (float_of a + b)%float.

(** [a /= n] with [n] a Python int: Python's float raises on a zero
    divisor, numpy's returns an infinity or a NaN. *)
Definition itruediv_int (a : pynum) (n : Z) : result pynum :=
  match a with
  | PyFloat x =>
      if Z.eqb n 0 then Raise ZeroDivisionError
      else Ok (PyFloat (x / float_of_int n)%float)
  | NpFloat64 x => Ok (NpFloat64 (x / float_of_int n)%float)
  end.

(** Truth value of a Python number: anything but a zero. *)
Definition truthy (a : pynum) : bool := negb (float_of a =? 0)%float.

(** [str(n)] for a non-negative int. *)
Definition str_of_nat (n : nat) : string :=
  NilEmpty.string_of_uint (Nat.to_uint n).

(** The collaborators of [evaluate] that live outside the two files: the
    framework's tensors and data loader, [infer.inference] (with the model
    and the dataset's transforms), [loss_computation] (with the loss
    specification), [metric.auc_roc] and numpy's [mean]. In inference mode
    they are functions of their arguments. *)
Class Framework : Type := {
  tensor : Type;
  array : Type;
  shape : Type;
  collate : list (tensor * tensor) -> tensor * tensor;
  astype_int64 : tensor -> tensor;
  shape_last3 : tensor -> shape;
  inference : tensor -> shape -> tensor * tensor;
  numpy : tensor -> array;
  loss_computation : tensor -> tensor -> list float * list float;
  softmax : tensor -> tensor;
  np_mean : list float -> float;
  metric_auc_roc : list array -> list array -> nat -> pynum
}.

(** [paddle.distributed.ParallelEnv()] *)
Record ParallelEnv : Type := {
  nranks : nat;
  local_rank : nat
}.

Section Evaluate.
Context {F : Framework}.

(** What a run of [evaluate] does to the outside. Wall-clock readings (the
    two [TimeAverager]s) are left out. *)
Inductive event : Type :=
| Getitem (idx : nat)
| Inference (im : tensor)
| NpSave (path : string) (a : array)
| LogStart (total_samples total_iters : nat)
| LogSaved (iter : nat)
| ProgbarUpdate (current : nat)
| LogSummary (images : nat) (dice loss : float) (with_auc : bool)
| LogClassDice (dice : list float).

(** The outside world: the events so far, oldest first, and the files
    written by [np.save], by path. *)
Record world : Type := {
  trace : list event;
  files : gmap string array
}.

Definition emit (e : event) : M world unit :=
  fun w => Ok (tt, {| trace := trace w ++ [e]; files := files w |}).

(** [np.save(path, a)]: the file at [path] now holds [a]. *)
Definition np_save (path : string) (a : array) : M world unit :=
  fun w => Ok (tt, {| trace := trace w ++ [NpSave path a];
                      files := <[path := a]> (files w) |}).

(** [np.load(path)] *)
Definition np_load (w : world) (path : string) : option array :=
  files w !! path.

(** *** [paddle.io.DistributedBatchSampler] *)

(** [range(start, stop, step)], [fuel] bounding the number of elements. *)
Fixpoint py_range (fuel start stop step : nat) : list nat :=
  match fuel with
  | O => []
  | S fuel' =>
      if (start <? stop)%nat then start :: py_range fuel' (start + step) stop step
      else []
  end.

(** [l[i:j]] *)
Definition slice {A : Type} (l : list A) (i j : nat) : list A :=
  take (j - i) (drop i l).

(** [int(math.ceil(n * 1.0 / d))] *)
Definition ceil_div (n d : nat) : nat := ((n + d - 1) / d)%nat.

Definition num_samples (n nr : nat) : nat := ceil_div n nr.
Definition total_size (n nr : nat) : nat := (num_samples n nr * nr)%nat.

(** [_get_indices_by_batch_size] *)
Definition subsample (indices : list nat) (batch_size nr rank : nat) : list nat :=
  let last_batch_size := (length indices mod (batch_size * nr))%nat in
  let last_local_batch_size := (last_batch_size / nr)%nat in
  let body :=
    flat_map (fun i => slice indices i (i + batch_size))
             (py_range (length indices) (rank * batch_size)
                       (length indices - last_batch_size) (batch_size * nr)) in
  let tail := drop (length indices - last_batch_size) indices in
  body ++ slice tail (rank * last_local_batch_size)
                     ((rank + 1) * last_local_batch_size).

(** The batching loop of [__iter__]. *)
Fixpoint batch_up (batch_size : nat) (drop_last : bool)
         (idxs cur : list nat) : list (list nat) :=
  match idxs with
  | [] => if drop_last || (length cur =? 0)%nat then [] else [cur]
  | i :: rest =>
      let cur' := cur ++ [i] in
      if (length cur' =? batch_size)%nat
      then cur' :: batch_up batch_size drop_last rest []
      else batch_up batch_size drop_last rest cur'
  end.

(** [iter(DistributedBatchSampler(dataset, batch_size, shuffle=False,
    drop_last))] for a dataset of [n] samples; the two [assert]s of
    [__iter__] are kept. *)
Definition sampler_iter (env : ParallelEnv) (n batch_size : nat)
           (drop_last : bool) : result (list (list nat)) :=
  let nr := nranks env in
  let indices := seq 0 n in
  let indices := indices ++ take (total_size n nr - length indices) indices in
  if negb (length indices =? total_size n nr)%nat then Raise AssertionError
  else
    let indices :=
      if (1 <? nr)%nat then subsample indices batch_size nr (local_rank env)
      else indices in
    if negb (length indices =? num_samples n nr)%nat then Raise AssertionError
    else Ok (batch_up batch_size drop_last indices []).

(** [len(DistributedBatchSampler(...))] *)
Definition sampler_len (env : ParallelEnv) (n batch_size : nat)
           (drop_last : bool) : nat :=
  ((num_samples n (nranks env)
    + (if drop_last then 0 else 1) * (batch_size - 1)) / batch_size)%nat.

(** *** The evaluation loop *)

(** [sum(loss)] then [loss.numpy()]: Python's [sum] starts from the int 0,
    which has no [numpy] method when the list of losses is empty. *)
Definition sum_loss (loss : list float) : result float :=
  match loss with
  | [] => Raise AttributeError
  | _ => Ok (fold_left (fun a x => (a + x)%float) loss 0%float)
  end.

(** [a += b] on two float arrays, with numpy's broadcasting of a
    one-element right operand. *)
Definition iadd_array (a b : list float) : result (list float) :=
  if (length a =? length b)%nat then Ok (zip_with (fun x y => (x + y)%float) a b)
  else match b with
       | [y] => Ok (map (fun x => (x + y)%float) a)
       | _ => Raise ValueError
       end.

(** The local variables that live across iterations. *)
Record locals : Type := {
  logits_all : option (list array);
  label_all : option (list array);
  mdice : pynum;
  channel_dice_array : list float;
  loss_all : pynum
}.

(** Lines 73-74 and 86-88. *)
Definition locals_init : locals :=
  {| logits_all := None;
     label_all := None;
     mdice := PyFloat 0;
     channel_dice_array := [];
     loss_all := PyFloat 0 |}.

(** [dataset[idx]] for every index of the batch, collated. *)
Definition fetch (eval_dataset : list (tensor * tensor)) (batch : list nat)
  : M world (tensor * tensor) :=
  let* samples :=
    (fix go (idxs : list nat) : M world (list (tensor * tensor)) :=
       match idxs with
       | [] => ret []
       | idx :: rest =>
           emit (Getitem idx) ;;;
           match eval_dataset !! idx with
           | None => raise IndexError
           | Some s => let* ss := go rest in ret (s :: ss)
           end
       end) batch in
  ret (collate samples).

(** Lines 104-113. *)
Definition save_outputs (save_dir : option string) (iter : nat)
           (pred label im : tensor) : M world unit :=
  match save_dir with
  | None => ret tt
  | Some dir =>
      np_save (dir +:+ "/" +:+ str_of_nat iter +:+ "_pred.npy") (numpy pred) ;;;
      np_save (dir +:+ "/" +:+ str_of_nat iter +:+ "_label.npy") (numpy label) ;;;
      np_save (dir +:+ "/" +:+ str_of_nat iter +:+ "_img.npy") (numpy im) ;;;
      emit (LogSaved iter)
  end.

(** Lines 126-135. *)
Definition collect_auc (auc_roc : bool) (logits label : tensor) (st : locals)
  : option (list array) * option (list array) :=
  if auc_roc then
    let logits := softmax logits in
    match logits_all st with
    | None => (Some [numpy logits], Some [numpy label])
    | Some la =>
        (Some (la ++ [numpy logits]),
         Some (default [] (label_all st) ++ [numpy label]))
    end
  else (logits_all st, label_all st).

(** One pass through the body of the [for] loop, lines 92-154. *)
Definition iteration (env : ParallelEnv) (eval_dataset : list (tensor * tensor))
           (print_detail auc_roc : bool) (writer : option unit)
           (save_dir : option string)
           (iter : nat) (batch : list nat) (st : locals) : M world locals :=
  let* im_label := fetch eval_dataset batch in
  let im := fst im_label in
  let label := astype_int64 (snd im_label) in
  emit (Inference im) ;;;
  let pred_logits := inference im (shape_last3 label) in
  let pred := fst pred_logits in
  let logits := snd pred_logits in
  save_outputs save_dir iter pred label im ;;;
  let loss_dice := loss_computation logits label in
  let per_channel_dice := snd loss_dice in
  let* loss := lift (sum_loss (fst loss_dice)) in
  let auc := collect_auc auc_roc logits label st in
  let loss_all' := iadd_np (loss_all st) loss in
  let mdice' := iadd_np (mdice st) (np_mean per_channel_dice) in
  let* cda :=
    (if (length (channel_dice_array st) =? 0)%nat then ret per_channel_dice
     else lift (iadd_array (channel_dice_array st) per_channel_dice)) in
  (if (local_rank env =? 0)%nat && print_detail
   then emit (ProgbarUpdate (iter + 1)) else ret tt) ;;;
  ret {| logits_all := fst auc;
         label_all := snd auc;
         mdice := mdice';
         channel_dice_array := cda;
         loss_all := loss_all' |}.

(** [for iter, (im, label) in enumerate(loader)], from [iter] on. *)
Fixpoint loop (body : nat -> list nat -> locals -> M world locals)
         (iter : nat) (batches : list (list nat)) (st : locals) : M world locals :=
  match batches with
  | [] => ret st
  | b :: rest => let* st' := body iter b st in loop body (S iter) rest st'
  end.

(** Lines 161-166: the AUC is computed from the collected arrays; with no
    iteration behind it they are still [None]. *)
Definition auc_value (num_classes : nat) (st : locals) : result pynum :=
  match logits_all st, label_all st with
  | Some la, Some lb => Ok (metric_auc_roc la lb num_classes)
  | _, _ => Raise TypeError
  end.

(** [loss_all[0]]: a Python float cannot be subscripted. *)
Definition getitem0 (a : pynum) : result float :=
  match a with
  | NpFloat64 x => Ok x
  | PyFloat _ => Raise TypeError
  end.

(** [evaluate(model, eval_dataset, losses, num_workers, print_detail,
    auc_roc, writer, save_dir)] under the parallel environment [env]; the
    model and the losses are those of the framework instance. *)
Definition evaluate (env : ParallelEnv) (eval_dataset : list (tensor * tensor))
           (num_classes : nat) (num_workers : nat)
           (print_detail auc_roc : bool) (writer : option unit)
           (save_dir : option string) : M world (gmap string pynum) :=
  let n := length eval_dataset in
  let total_iters := sampler_len env n 1 false in
  (if print_detail then emit (LogStart n total_iters) else ret tt) ;;;
  let* batches := lift (sampler_iter env n 1 false) in
  let* st :=
    loop (iteration env eval_dataset print_detail auc_roc writer save_dir)
         0 batches locals_init in
  let* mdice := lift (itruediv_int (mdice st) (Z.of_nat total_iters)) in
  let channel_dice_array :=
    map (fun x => (x / float_of_int (Z.of_nat total_iters))%float)
        (channel_dice_array st) in
  let* loss_all := lift (itruediv_int (loss_all st) (Z.of_nat total_iters)) in
  let result_dict : gmap string pynum := {[ "mdice" := mdice ]} in
  let* auc :=
    (if auc_roc then let* a := lift (auc_value num_classes st) in ret (Some a)
     else ret None) in
  let result_dict :=
    match auc with
    | Some a => <[ "auc_roc" := a ]> result_dict
    | None => result_dict
    end in
  (if print_detail then
     let* loss0 := lift (getitem0 loss_all) in
     emit (LogSummary n (float_of mdice) loss0
                      (match auc with Some a => truthy a | None => false end)) ;;;
     emit (LogClassDice channel_dice_array)
   else ret tt) ;;;
  ret result_dict.

End Evaluate.
End Val.

(** ** What the specification says, in its own words *)

Module Spec.

(** "clamps to [0, 1]": a value at or below the lower bound becomes the
    lower bound, one at or above the upper bound the upper bound, anything
    between stays; a NaN is neither and stays a NaN. *)
Definition clamp (x lo hi : float) : float :=
  if is_nan x then x
  else if (x <=? lo)%float then lo
  else if (hi <=? x)%float then hi
  else x.

(** "rescales every voxel to (value - min_val) / (max_val - min_val), then
    clamps to [0, 1]". *)
Definition normalize1 (min_val max_val v : float) : float :=
  clamp ((v - min_val) / (max_val - min_val))%float 0 1.

(** "replaces any not-a-number voxel with HU_nan". *)
Definition replace_nan (HU_nan v : float) : float :=
  if is_nan v then HU_nan else v.

(** "overwrites every voxel equal to original_value with new_value". *)
Definition replace_all (original_value new_value : Z) (a : list Z) : list Z :=
  map (fun x => if Z.eqb x original_value then new_value else x) a.

(** "applied key-by-key": one whole-array pass per pair, in order. *)
Definition remap_sequential (kvs : list (Z * Z)) (a : list Z) : list Z :=
  fold_left (fun a kv => replace_all (fst kv) (snd kv) a) kvs a.

(** The map with its values as an array of dtype [t] takes them: converted
    pair after pair, up to the first value that cannot be. *)
Fixpoint cast_values (nv : Npy.numpy_version) (t : Npy.int_dtype)
         (kvs : list (Z * Z)) : result (list (Z * Z)) :=
  match kvs with
  | [] => Ok []
  | kv :: kvs' =>
      match Npy.cast_int nv t (snd kv) with
      | Raise e => Raise e
      | Ok v =>
          match cast_values nv t kvs' with
          | Raise e => Raise e
          | Ok kvs'' => Ok ((fst kv, v) :: kvs'')
          end
      end
  end.

(** A remap read as a function on labels: the value of the first pair whose
    key is the label, the label itself when there is none. *)
Fixpoint first_match (kvs : list (Z * Z)) (x : Z) : Z :=
  match kvs with
  | [] => x
  | kv :: kvs' => if Z.eqb x (fst kv) then snd kv else first_match kvs' x
  end.

(** No value of a pair is the key of a later pair. *)
Fixpoint no_chain (kvs : list (Z * Z)) : bool :=
  match kvs with
  | [] => true
  | kv :: kvs' =>
      forallb (fun kv' => negb (Z.eqb (snd kv) (fst kv'))) kvs' && no_chain kvs'
  end.

(** "the arithmetic mean": the running float sum from 0.0, left to right,
    divided by the count. *)
Definition arithmetic_mean (xs : list float) : float :=
  (fold_left (fun a x => (a + x)%float) xs 0 / Val.float_of_int (Z.of_nat (length xs)))%float.

End Spec.

(** ** Reading a run *)

(** The IEEE comparison of two floats: [None] when one is a NaN. *)
Definition cmp (x y : float) : option comparison :=
  SFcompare (Prim2SF x) (Prim2SF y).


(** The array a call returned, read from the heap it left. *)
Definition returned {E : Type} (r : result (ref * heap E)) : option (pyobj E) :=
  match r with
  | Ok (p, h) => h !! p
  | Raise _ => None
  end.

Section Traces.
Context {F : Val.Framework}.

(** The images [infer.inference] was called on, in call order. *)
Fixpoint inferences (t : list Val.event) : list Val.tensor :=
  match t with
  | [] => []
  | Val.Inference im :: t' => im :: inferences t'
  | _ :: t' => inferences t'
  end.

(** The dataset indices the loader asked for, in order. *)
Fixpoint getitems (t : list Val.event) : list nat :=
  match t with
  | [] => []
  | Val.Getitem idx :: t' => idx :: getitems t'
  | _ :: t' => getitems t'
  end.

(** The [np.save] calls, in order. *)
Fixpoint saves (t : list Val.event) : list (string * Val.array) :=
  match t with
  | [] => []
  | Val.NpSave path a :: t' => (path, a) :: saves t'
  | _ :: t' => saves t'
  end.

(** What one sample goes through in an iteration: the collated batch of
    one, the int64 label, the prediction and logits, the Dice vector. *)
Definition im_of (s : Val.tensor * Val.tensor) : Val.tensor :=
  fst (Val.collate [s]).

Definition label_of (s : Val.tensor * Val.tensor) : Val.tensor :=
  Val.astype_int64 (snd (Val.collate [s])).

Definition pred_of (s : Val.tensor * Val.tensor) : Val.tensor :=
  fst (Val.inference (im_of s) (Val.shape_last3 (label_of s))).

Definition logits_of (s : Val.tensor * Val.tensor) : Val.tensor :=
  snd (Val.inference (im_of s) (Val.shape_last3 (label_of s))).

Definition dice_of (s : Val.tensor * Val.tensor) : list float :=
  snd (Val.loss_computation (logits_of s) (label_of s)).

Definition loss_of (s : Val.tensor * Val.tensor) : list float :=
  fst (Val.loss_computation (logits_of s) (label_of s)).

(** The three files of iteration [iter]. *)
Definition pred_path (dir : string) (iter : nat) : string :=
  dir +:+ "/" +:+ Val.str_of_nat iter +:+ "_pred.npy".
Definition label_path (dir : string) (iter : nat) : string :=
  dir +:+ "/" +:+ Val.str_of_nat iter +:+ "_label.npy".
Definition img_path (dir : string) (iter : nat) : string :=
  dir +:+ "/" +:+ Val.str_of_nat iter +:+ "_img.npy".

(** A path of iteration [iter]: the directory, a slash, the decimal index,
    an underscore and the name of the array. *)
Definition npy_path (dir : string) (iter : nat) (name : string) : string :=
  dir +:+ "/" +:+ Val.str_of_nat iter +:+ String "_" name.

(** What iteration [iter] does to the outside when the loader hands it the
    sample [s], fetched at index [idx]. *)
Definition iter_saves (save_dir : option string) (iter : nat)
           (s : Val.tensor * Val.tensor) : list Val.event :=
  match save_dir with
  | None => []
  | Some dir =>
      [Val.NpSave (pred_path dir iter) (Val.numpy (pred_of s));
       Val.NpSave (label_path dir iter) (Val.numpy (label_of s));
       Val.NpSave (img_path dir iter) (Val.numpy (im_of s));
       Val.LogSaved iter]
  end.

Definition iter_trace (env : Val.ParallelEnv) (print_detail : bool)
           (save_dir : option string) (iter idx : nat)
           (s : Val.tensor * Val.tensor) : list Val.event :=
  [Val.Getitem idx; Val.Inference (im_of s)]
  ++ iter_saves save_dir iter s
  ++ (if (Val.local_rank env =? 0)%nat && print_detail
      then [Val.ProgbarUpdate (iter + 1)] else []).

Definition iter_files (save_dir : option string) (iter : nat)
           (s : Val.tensor * Val.tensor)
           (fs : gmap string Val.array) : gmap string Val.array :=
  match save_dir with
  | None => fs
  | Some dir =>
      <[img_path dir iter := Val.numpy (im_of s)]>
        (<[label_path dir iter := Val.numpy (label_of s)]>
           (<[pred_path dir iter := Val.numpy (pred_of s)]> fs))
  end.

(** The same for the iterations [iter], [iter + 1], ... over the samples
    [ss], fetched at the indices [idxs]. *)
Fixpoint run_trace (env : Val.ParallelEnv) (print_detail : bool)
         (save_dir : option string) (iter : nat) (idxs : list nat)
         (ss : list (Val.tensor * Val.tensor)) : list Val.event :=
  match idxs, ss with
  | idx :: idxs', s :: ss' =>
      iter_trace env print_detail save_dir iter idx s
      ++ run_trace env print_detail save_dir (S iter) idxs' ss'
  | _, _ => []
  end.

Fixpoint run_files (save_dir : option string) (iter : nat)
         (ss : list (Val.tensor * Val.tensor))
         (fs : gmap string Val.array) : gmap string Val.array :=
  match ss with
  | [] => fs
  | s :: ss' => run_files save_dir (S iter) ss' (iter_files save_dir iter s fs)
  end.

(** The three [np.save] calls of the iterations from [iter] on. *)
Fixpoint run_saves (dir : string) (iter : nat)
         (ss : list (Val.tensor * Val.tensor)) : list (string * Val.array) :=
  match ss with
  | [] => []
  | s :: ss' =>
      [(pred_path dir iter, Val.numpy (pred_of s));
       (label_path dir iter, Val.numpy (label_of s));
       (img_path dir iter, Val.numpy (im_of s))]
      ++ run_saves dir (S iter) ss'
  end.

(** The progress-bar updates, in order. *)
Fixpoint progbar_updates (t : list Val.event) : list nat :=
  match t with
  | [] => []
  | Val.ProgbarUpdate current :: t' => current :: progbar_updates t'
  | _ :: t' => progbar_updates t'
  end.

(** The lines sent to the logger, in order. *)
Fixpoint logged (t : list Val.event) : list Val.event :=
  match t with
  | [] => []
  | Val.LogStart a b :: t' => Val.LogStart a b :: logged t'
  | Val.LogSaved i :: t' => Val.LogSaved i :: logged t'
  | Val.LogSummary a b c e :: t' => Val.LogSummary a b c e :: logged t'
  | Val.LogClassDice c :: t' => Val.LogClassDice c :: logged t'
  | _ :: t' => logged t'
  end.

(** What the samples [ss] contribute to [logits_all] and [label_all]. *)
Definition auc_logits (ss : list (Val.tensor * Val.tensor)) : list Val.array :=
  map (fun s => Val.numpy (Val.softmax (logits_of s))) ss.

Definition auc_labels (ss : list (Val.tensor * Val.tensor)) : list Val.array :=
  map (fun s => Val.numpy (label_of s)) ss.

(** [np.mean(per_channel_dice)] of a sample. *)
Definition mean_dice (s : Val.tensor * Val.tensor) : float :=
  Val.np_mean (dice_of s).

(** What a run left behind, when it returned. *)
Definition final_trace {A : Type} (r : result (A * Val.world)) : list Val.event :=
  match r with
  | Ok (_, w) => Val.trace w
  | Raise _ => []
  end.

Definition final_value {A : Type} (r : result (A * Val.world)) : option A :=
  match r with
  | Ok (a, _) => Some a
  | Raise _ => None
  end.

Definition final_world {A : Type} (r : result (A * Val.world)) : Val.world :=
  match r with
  | Ok (_, w) => w
  | Raise _ => {| Val.trace := []; Val.files := ∅ |}
  end.

(** The state of the loop after at least one iteration: the two running sums
    are numpy scalars, and with [auc_roc] on, the two collections exist. *)
Definition np_state (auc : bool) (st : Val.locals) : Prop :=
  (exists x, Val.mdice st = Val.NpFloat64 x) /\
  (exists y, Val.loss_all st = Val.NpFloat64 y) /\
  (auc = true -> is_Some (Val.logits_all st) /\ is_Some (Val.label_all st)).

(** A string without an underscore. *)
Fixpoint no_underscore (s : string) : bool :=
  match s with
  | EmptyString => true
  | String c s' => negb (Ascii.eqb c "_") && no_underscore s'
  end.

End Traces.

(** A small framework to run [evaluate] on: tensors and arrays are numbers,
    the "model" adds 100 (prediction) and 200 (logits), and the Dice vector
    of a sample depends on the parity of its logits. *)
Definition toy_mean (xs : list float) : float :=
  (fold_left (fun a x => (a + x)%float) xs 0 / Val.float_of_int (Z.of_nat (length xs)))%float.

#[local] Instance toy : Val.Framework := {|
  Val.tensor := nat;
  Val.array := nat;
  Val.shape := unit;
  Val.collate := fun l => List.hd (0%nat, 0%nat) l;
  Val.astype_int64 := fun t => t;
  Val.shape_last3 := fun _ => tt;
  Val.inference := fun im _ => ((im + 100)%nat, (im + 200)%nat);
  Val.numpy := fun t => t;
  Val.loss_computation := fun logits _ =>
    ([0.25%float],
     if Nat.even logits then [0.5%float; 1%float] else [0.25%float; 0.75%float]);
  Val.softmax := fun t => t;
  Val.np_mean := toy_mean;
  Val.metric_auc_roc := fun _ _ _ => Val.NpFloat64 0.75
|}.

(** The same framework with a loss computation that returns no loss. *)
Definition toy_lossless : Val.Framework := {|
  Val.tensor := nat;
  Val.array := nat;
  Val.shape := unit;
  Val.collate := fun l => List.hd (0%nat, 0%nat) l;
  Val.astype_int64 := fun t => t;
  Val.shape_last3 := fun _ => tt;
  Val.inference := fun im _ => ((im + 100)%nat, (im + 200)%nat);
  Val.numpy := fun t => t;
  Val.loss_computation := fun _ _ => ([], [0.5%float; 1%float]);
  Val.softmax := fun t => t;
  Val.np_mean := toy_mean;
  Val.metric_auc_roc := fun _ _ _ => Val.NpFloat64 0.75
|}.

Definition toy_env (nr rank : nat) : Val.ParallelEnv :=
  {| Val.nranks := nr; Val.local_rank := rank |}.

Definition world0 : Val.world := {| Val.trace := []; Val.files := ∅ |}.

Definition toy_dataset (n : nat) : list (nat * nat) :=
  map (fun i => (i, (i + 50)%nat)) (seq 0 n).


(** * Facts about binary64 arithmetic *)

(** The primitive floats are specified by [SpecFloat]; every fact below goes
    through [Prim2SF]. *)

Lemma Prim2SF_zero : Prim2SF 0%float = S754_zero false.
Proof. reflexivity. Qed.

Lemma Prim2SF_one : Prim2SF 1%float = S754_finite false 4503599627370496 (-52).
Proof. reflexivity. Qed.

Lemma Prim2SF_infinity : Prim2SF infinity = S754_infinity false.
Proof. reflexivity. Qed.

Lemma Prim2SF_neg_infinity : Prim2SF neg_infinity = S754_infinity true.
Proof. reflexivity. Qed.

Lemma Prim2SF_nan : Prim2SF nan = S754_nan.
Proof. reflexivity. Qed.

(** [x - 0.0 = x], signed zeros included. *)
Lemma sub_zero_r (x : float) : (x - 0)%float = x.
Proof.
  apply Prim2SF_inj. rewrite FloatAxioms.sub_spec, Prim2SF_zero.
  destruct (Prim2SF x) as [[]|[]| |s m e]; reflexivity.
Qed.

Lemma div_eucl_pair (a b : Z) : Z.div_eucl a b = (a / b, a mod b).
Proof. unfold Z.div, Z.modulo. destruct (Z.div_eucl a b); reflexivity. Qed.

Lemma fexp_unfold (k : Z) : fexp prec emax k = Z.max (k - 53) (-1074).
Proof. reflexivity. Qed.

(** A canonical mantissa is not shifted. *)
Lemma shr_fexp_canonical (m : positive) (e : Z) :
  fexp prec emax (Z.pos (digits2_pos m) + e) = e ->
  shr_fexp prec emax (Z.pos m) e loc_Exact
  = ({| shr_m := Z.pos m; shr_r := false; shr_s := false |}, e).
Proof.
  intros H. unfold shr_fexp. cbn [Zdigits2]. rewrite H, Z.sub_diag. reflexivity.
Qed.

(** Rounding an exact, canonical, in-range value returns it. *)
Lemma binary_round_aux_canonical (s : bool) (m : positive) (e : Z) :
  bounded prec emax m e = true ->
  binary_round_aux prec emax s (Z.pos m) e loc_Exact = S754_finite s m e.
Proof.
  unfold bounded, canonical_mantissa. intros H.
  apply andb_prop in H as [Hc He]. apply Z.eqb_eq in Hc.
  unfold binary_round_aux. rewrite (shr_fexp_canonical m e Hc).
  cbn [shr_m loc_of_shr_record round_nearest_even].
  rewrite (shr_fexp_canonical m e Hc). cbn [shr_m]. rewrite He. reflexivity.
Qed.

(** The same value with one more mantissa bit and the exponent one lower
    (what the division below produces for a normal number). *)
Lemma binary_round_aux_double (s : bool) (m : positive) (e : Z) :
  bounded prec emax m e = true -> Z.pos (digits2_pos m) = 53 ->
  binary_round_aux prec emax s (Z.pos m~0) (e - 1) loc_Exact = S754_finite s m e.
Proof.
  intros H Hd. pose proof H as H0. unfold bounded, canonical_mantissa in H.
  apply andb_prop in H as [Hc He]. apply Z.eqb_eq in Hc.
  rewrite fexp_unfold in Hc.
  unfold binary_round_aux.
  assert (Hs : shr_fexp prec emax (Z.pos m~0) (e - 1) loc_Exact
          = ({| shr_m := Z.pos m; shr_r := false; shr_s := false |}, e)).
  { unfold shr_fexp. cbn [Zdigits2 digits2_pos]. rewrite Pos2Z.inj_succ, Hd.
    rewrite fexp_unfold.
    replace (Z.max (Z.succ 53 + (e - 1) - 53) (-1074) - (e - 1)) with 1 by lia.
    cbn. f_equal. lia. }
  rewrite Hs. cbn [shr_m loc_of_shr_record round_nearest_even].
  rewrite shr_fexp_canonical by (rewrite fexp_unfold; exact Hc).
  cbn [shr_m]. rewrite He. reflexivity.
Qed.

Lemma SFdiv_one_finite (s : bool) (m : positive) (e : Z) :
  bounded prec emax m e = true ->
  SF64div (S754_finite s m e) (S754_finite false 4503599627370496 (-52))
  = S754_finite s m e.
Proof.
  intros H. pose proof H as H0. unfold bounded, canonical_mantissa in H.
  apply andb_prop in H as [Hc He]. apply Z.eqb_eq in Hc. apply Z.leb_le in He.
  rewrite fexp_unfold in Hc.
  unfold SF64div, SFdiv, SFdiv_core_binary.
  cbn [Zdigits2]. change (Z.pos (digits2_pos 4503599627370496)) with 53.
  rewrite fexp_unfold, xorb_false_r.
  set (d := Z.pos (digits2_pos m)) in *.
  destruct (Z.eq_dec e (-1074)) as [E|E].
  - replace (Z.min (Z.max (d + e - (53 + -52) - 53) (-1074)) (e - -52)) with e by lia.
    replace (e - -52 - e) with 52 by lia.
    rewrite div_eucl_pair, Z.shiftl_mul_pow2 by lia.
    change (2 ^ 52) with 4503599627370496.
    rewrite Z.div_mul, Z.mod_mul by lia.
    change (new_location 4503599627370496 0) with loc_Exact.
    apply binary_round_aux_canonical; exact H0.
  - assert (Hd : d = 53) by lia.
    replace (Z.min (Z.max (d + e - (53 + -52) - 53) (-1074)) (e - -52))
      with (e - 1) by lia.
    replace (e - -52 - (e - 1)) with 53 by lia.
    rewrite div_eucl_pair, Z.shiftl_mul_pow2 by lia.
    replace (Z.pos m * 2 ^ 53) with (Z.pos m~0 * 4503599627370496)
      by (change (2 ^ 53) with (2 * 4503599627370496); lia).
    rewrite Z.div_mul, Z.mod_mul by lia.
    change (new_location 4503599627370496 0) with loc_Exact.
    apply binary_round_aux_double; assumption.
Qed.

(** [x / 1.0 = x] for every float. *)
Lemma div_one_r (x : float) : (x / 1)%float = x.
Proof.
  apply Prim2SF_inj. rewrite FloatAxioms.div_spec, Prim2SF_one.
  pose proof (Prim2SF_valid x) as V.
  destruct (Prim2SF x) as [[]|[]| |s m e]; try reflexivity.
  apply SFdiv_one_finite. exact V.
Qed.

(** *** Comparisons *)

Lemma ltb_cmp (x y : float) :
  (x <? y)%float = match cmp x y with Some Lt => true | _ => false end.
Proof. rewrite FloatAxioms.ltb_spec. reflexivity. Qed.

Lemma leb_cmp (x y : float) :
  (x <=? y)%float = match cmp x y with Some (Lt | Eq) => true | _ => false end.
Proof. rewrite FloatAxioms.leb_spec. reflexivity. Qed.

Lemma eqb_cmp (x y : float) :
  (x =? y)%float = match cmp x y with Some Eq => true | _ => false end.
Proof. rewrite FloatAxioms.eqb_spec. reflexivity. Qed.

Lemma SFcompare_refl (x : spec_float) :
  SFcompare x x = match x with S754_nan => None | _ => Some Eq end.
Proof.
  destruct x as [[]|[]| |[] m e]; try reflexivity; cbn;
    rewrite Z.compare_refl; change (Pos.compare_cont Eq m m) with (Pos.compare m m);
    rewrite Pos.compare_refl; reflexivity.
Qed.

Lemma is_nan_spec (x : float) :
  is_nan x = match Prim2SF x with S754_nan => true | _ => false end.
Proof.
  unfold is_nan. rewrite FloatAxioms.eqb_spec. unfold SFeqb. rewrite SFcompare_refl.
  destruct (Prim2SF x); reflexivity.
Qed.

Lemma SFcompare_antisym (x y : spec_float) :
  SFcompare y x = match SFcompare x y with
                  | Some c => Some (CompOpp c)
                  | None => None
                  end.
Proof.
  destruct x as [[]|[]| |[] m1 e1], y as [[]|[]| |[] m2 e2]; try reflexivity; cbn;
    rewrite (Z.compare_antisym e1 e2);
    change (Pos.compare_cont Eq m2 m1) with (Pos.compare m2 m1);
    change (Pos.compare_cont Eq m1 m2) with (Pos.compare m1 m2);
    rewrite (Pos.compare_antisym m1 m2);
    destruct (e1 ?= e2); cbn; try reflexivity;
    destruct (m1 ?= m2)%positive; reflexivity.
Qed.

Lemma cmp_antisym (x y : float) :
  cmp y x = match cmp x y with Some c => Some (CompOpp c) | None => None end.
Proof. apply SFcompare_antisym. Qed.

Lemma cmp_None (x y : float) :
  cmp x y = None <-> is_nan x = true \/ is_nan y = true.
Proof.
  unfold cmp. rewrite !is_nan_spec.
  destruct (Prim2SF x) as [[]|[]| |[] m1 e1], (Prim2SF y) as [[]|[]| |[] m2 e2]; cbn;
    intuition congruence.
Qed.

Lemma SFcompare_Eq (x y : spec_float) :
  SFcompare x y = Some Eq ->
  x = y \/ (exists a b, x = S754_zero a /\ y = S754_zero b).
Proof.
  destruct x as [[]|[]| |[] m1 e1], y as [[]|[]| |[] m2 e2]; cbn; try discriminate;
    try (intros _; left; reflexivity); try (intros _; right; eauto; fail);
    destruct (Z.compare_spec e1 e2); try discriminate;
    change (Pos.compare_cont Eq m1 m2) with (Pos.compare m1 m2);
    destruct (Pos.compare_spec m1 m2); try discriminate; intros _; left; congruence.
Qed.

Lemma cmp_Some_not_nan (x y : float) (c : comparison) :
  cmp x y = Some c -> is_nan x = false /\ is_nan y = false.
Proof.
  intros E. split.
  - destruct (is_nan x) eqn:N; [|reflexivity].
    assert (cmp x y = None) by (apply cmp_None; auto). congruence.
  - destruct (is_nan y) eqn:N; [|reflexivity].
    assert (cmp x y = None) by (apply cmp_None; auto). congruence.
Qed.

Lemma ltb_not_nan (x y : float) :
  (x <? y)%float = true -> is_nan x = false /\ is_nan y = false.
Proof.
  rewrite ltb_cmp. destruct (cmp x y) as [c|] eqn:E; [|discriminate].
  intros _. exact (cmp_Some_not_nan x y c E).
Qed.

Lemma leb_not_nan (x y : float) :
  (x <=? y)%float = true -> is_nan x = false /\ is_nan y = false.
Proof.
  rewrite leb_cmp. destruct (cmp x y) as [c|] eqn:E; [|discriminate].
  intros _. exact (cmp_Some_not_nan x y c E).
Qed.

(** Away from NaN the order is total: [x <= y] is [not (y < x)]. *)
Lemma leb_negb_ltb (x y : float) :
  is_nan x = false -> is_nan y = false ->
  (x <=? y)%float = negb (y <? x)%float.
Proof.
  intros Hx Hy. rewrite leb_cmp, ltb_cmp, (cmp_antisym x y).
  destruct (cmp x y) as [[]|] eqn:E; try reflexivity.
  apply cmp_None in E. destruct E; congruence.
Qed.

(** [x <= y] and [y <= x] make the two IEEE-equal. *)
Lemma leb_antisym (x y : float) :
  (x <=? y)%float = true -> (y <=? x)%float = true -> (x =? y)%float = true.
Proof.
  rewrite !leb_cmp, eqb_cmp, (cmp_antisym x y).
  destruct (cmp x y) as [[]|]; cbn; congruence.
Qed.

(** IEEE-equal floats are the same float, unless both are zeros. *)
Lemma eqb_true (x y : float) :
  (x =? y)%float = true ->
  x = y \/ ((x = 0%float \/ x = neg_zero) /\ (y = 0%float \/ y = neg_zero)).
Proof.
  rewrite eqb_cmp. unfold cmp.
  destruct (SFcompare (Prim2SF x) (Prim2SF y)) as [[]|] eqn:E; try discriminate.
  intros _. apply SFcompare_Eq in E as [E|(a & b & Ea & Eb)].
  - left. apply Prim2SF_inj. exact E.
  - right. split.
    + rewrite <- (SF2Prim_Prim2SF x), Ea. destruct a; auto.
    + rewrite <- (SF2Prim_Prim2SF y), Eb. destruct b; auto.
Qed.

Lemma eqb_refl_not_nan (x : float) : is_nan x = false -> (x =? x)%float = true.
Proof. unfold is_nan. destruct (x =? x)%float; cbn; congruence. Qed.

(** Anything above one is above zero. *)
Lemma one_ltb_not_leb_zero (x : float) :
  (1 <? x)%float = true -> (x <=? 0)%float = false.
Proof.
  rewrite ltb_cmp, leb_cmp. unfold cmp. rewrite Prim2SF_one, Prim2SF_zero.
  destruct (Prim2SF x) as [[]|[]| |[] m e]; cbn; congruence.
Qed.

(** *** The clip kernel is the specification's clamp *)

Lemma is_nan_zero : is_nan 0 = false.
Proof. reflexivity. Qed.

Lemma is_nan_one : is_nan 1 = false.
Proof. reflexivity. Qed.

Lemma npy_clip_clamp (x : float) : Npy.npy_clip x 0 1 = Spec.clamp x 0 1.
Proof.
  unfold Npy.npy_clip, Npy.npy_max, Npy.npy_min, Spec.clamp.
  destruct (is_nan x) eqn:N.
  - rewrite N. reflexivity.
  - rewrite (leb_negb_ltb x 0 N is_nan_zero).
    destruct (0 <? x)%float eqn:L; cbn [negb].
    + rewrite N, (leb_negb_ltb 1 x is_nan_one N).
      destruct (x <? 1)%float; reflexivity.
    + reflexivity.
Qed.

(** Inside [0, 1] the clamp changes nothing but the sign of a zero. *)
Lemma clamp_inside (x : float) :
  (0 <=? x)%float = true -> (x <=? 1)%float = true ->
  (Spec.clamp x 0 1 =? x)%float = true /\ (x <> neg_zero -> Spec.clamp x 0 1 = x).
Proof.
  intros H0 H1. destruct (leb_not_nan _ _ H0) as [_ N].
  unfold Spec.clamp. rewrite N.
  destruct (x <=? 0)%float eqn:L0.
  - pose proof (leb_antisym 0 x H0 L0) as E. split; [exact E|].
    intros Hz. apply eqb_true in E as [E|[_ [E|E]]]; congruence.
  - destruct (1 <=? x)%float eqn:L1.
    + pose proof (leb_antisym 1 x L1 H1) as E. split; [exact E|].
      intros _. apply eqb_true in E as [E|[[E|E] _]]; [exact E|discriminate E..].
    + split; [apply eqb_refl_not_nan; exact N|reflexivity].
Qed.

Lemma clamp_below (x : float) : (x <? 0)%float = true -> Spec.clamp x 0 1 = 0%float.
Proof.
  intros H. destruct (ltb_not_nan _ _ H) as [N _].
  unfold Spec.clamp. rewrite N, (leb_negb_ltb x 0 N is_nan_zero).
  rewrite ltb_cmp, (cmp_antisym x 0). rewrite ltb_cmp in H.
  destruct (cmp x 0) as [[]|]; cbn in *; congruence.
Qed.

Lemma clamp_above (x : float) : (1 <? x)%float = true -> Spec.clamp x 0 1 = 1%float.
Proof.
  intros H. destruct (ltb_not_nan _ _ H) as [_ N].
  unfold Spec.clamp. rewrite N, (one_ltb_not_leb_zero x H).
  rewrite leb_cmp. rewrite ltb_cmp in H.
  destruct (cmp 1 x) as [[]|]; cbn in *; congruence.
Qed.

(** With bounds 0 and 1 the rescaling is exact. *)
Lemma rescale_0_1 (x : float) : ((x - 0) / (1 - 0))%float = x.
Proof.
  change (1 - 0)%float with 1%float. rewrite sub_zero_r. apply div_one_r.
Qed.

(** * [values.py]: what a call leaves on the heap *)

Lemma lookup_snoc {A : Type} (h : list A) (x : A) : (h ++ [x]) !! length h = Some x.
Proof. induction h as [|y h IH]; [reflexivity|exact IH]. Qed.

Lemma insert_snoc {A : Type} (h : list A) (x y : A) :
  <[length h := y]> (h ++ [x]) = h ++ [y].
Proof. induction h as [|z h IH]; [reflexivity|]. cbn. f_equal. exact IH. Qed.

Lemma lookup_snoc_old {A : Type} (h : list A) (x : A) (i : nat) (o : A) :
  h !! i = Some o -> (h ++ [x]) !! i = Some o.
Proof. intros H. apply lookup_app_l_Some. exact H. Qed.

Lemma lookup_fresh {A : Type} (h : list A) : h !! length h = None.
Proof. apply lookup_ge_None_2. reflexivity. Qed.

(** The array [Normalize] computes from the data it is given. *)
Lemma clip_rescale (d : list float) (lo hi : float) :
  Npy.clip (Npy.true_divide (Npy.subtract d lo) (hi - lo)) 0 1
  = map (Spec.normalize1 lo hi) d.
Proof.
  unfold Npy.clip, Npy.true_divide, Npy.subtract, Spec.normalize1.
  rewrite !map_map. apply map_ext. intros x. apply npy_clip_clamp.
Qed.

(** A run of [Normalize]: a list is first copied into a new array; the
    result is one more new array; nothing already on the heap changes. *)
Lemma Normalize_run (h : heap float) (image : ref) (o : pyobj float) (lo hi : float) :
  h !! image = Some o ->
  Values.Normalize image lo hi h
  = let h1 := if isinstance_ndarray o then h else h ++ [np_array o] in
    Ok (length h1, h1 ++ [NdArray (map (Spec.normalize1 lo hi) (data_of o))]).
Proof.
  intros H. unfold Values.Normalize, bind, deref, alloc, assign, ret.
  unfold heap, ref in *.
  rewrite H. destruct o as [d|l]; cbn [isinstance_ndarray negb np_array].
  - rewrite H. cbn [data_of]. rewrite lookup_snoc. cbn [data_of].
    rewrite lookup_snoc, insert_snoc, clip_rescale. reflexivity.
  - rewrite lookup_snoc. cbn [data_of].
    rewrite lookup_snoc. cbn [data_of].
    rewrite lookup_snoc, insert_snoc, clip_rescale. reflexivity.
Qed.

(** A run of [HUNorm] on an ndarray: the caller's array is overwritten by
    [nan_to_num], the result is a new array. *)
Lemma HUNorm_run_ndarray (h : heap float) (image : ref) (d : list float)
      (lo hi v : float) :
  h !! image = Some (NdArray d) ->
  Values.HUNorm image lo hi v h
  = Ok (length h,
        <[image := NdArray (Npy.nan_to_num d v)]> h
        ++ [NdArray (map (Spec.normalize1 lo hi) (Npy.nan_to_num d v))]).
Proof.
  intros H. unfold Values.HUNorm, bind, deref, alloc, assign, ret.
  unfold heap, ref in *.
  rewrite H. cbn [isinstance_ndarray negb]. rewrite H. cbn [data_of].
  rewrite H. cbn beta iota.
  assert (Hi : (image < length h)%nat) by (apply lookup_lt_is_Some; eauto).
  rewrite list_lookup_insert_eq by exact Hi. cbn [data_of].
  set (h1 := <[image := NdArray (Npy.nan_to_num d v)]> h).
  assert (L : length h1 = length h) by apply length_insert.
  rewrite <- L, lookup_snoc. cbn [data_of].
  rewrite lookup_snoc, insert_snoc, clip_rescale. reflexivity.
Qed.

(** A run of [HUNorm] on a list: the list is copied first, and it is the
    copy that [nan_to_num] overwrites. *)
Lemma HUNorm_run_list (h : heap float) (image : ref) (l : list float)
      (lo hi v : float) :
  h !! image = Some (PyList l) ->
  Values.HUNorm image lo hi v h
  = Ok (S (length h),
        (h ++ [NdArray (Npy.nan_to_num l v)])
          ++ [NdArray (map (Spec.normalize1 lo hi) (Npy.nan_to_num l v))]).
Proof.
  intros H. unfold Values.HUNorm, bind, deref, alloc, assign, ret.
  unfold heap, ref in *.
  rewrite H. cbn [isinstance_ndarray negb np_array].
  repeat (first [rewrite lookup_snoc | rewrite insert_snoc]; cbn [data_of]).
  rewrite clip_rescale, length_app, Nat.add_1_r. reflexivity.
Qed.

(** *** A divisor that is a zero or a NaN *)

Lemma is_infinity_spec (x : float) :
  is_infinity x = match Prim2SF x with S754_infinity _ => true | _ => false end.
Proof.
  unfold is_infinity.
  rewrite FloatAxioms.eqb_spec, FloatAxioms.abs_spec, Prim2SF_infinity.
  destruct (Prim2SF x) as [[]|[]| |[] m e]; reflexivity.
Qed.




Lemma clamp_nan (q : float) : is_nan q = true -> Spec.clamp q 0 1 = q.
Proof. intros N. unfold Spec.clamp. rewrite N. reflexivity. Qed.


(** Whatever is not a NaN ends inside [0, 1]. *)
Lemma clamp_range (x : float) :
  is_nan x = false ->
  (0 <=? Spec.clamp x 0 1)%float = true /\ (Spec.clamp x 0 1 <=? 1)%float = true.
Proof.
  intros N. unfold Spec.clamp. rewrite N.
  destruct (x <=? 0)%float eqn:L0; [split; reflexivity|].
  destruct (1 <=? x)%float eqn:L1; [split; reflexivity|].
  rewrite (leb_negb_ltb x 0 N is_nan_zero) in L0.
  rewrite (leb_negb_ltb 1 x is_nan_one N) in L1.
  apply negb_false_iff in L0, L1. rewrite !leb_cmp.
  rewrite ltb_cmp in L0, L1. rewrite (cmp_antisym x 0).
  rewrite (cmp_antisym x 0) in L0.
  destruct (cmp x 0) as [[]|], (cmp x 1) as [[]|]; cbn in *; try discriminate;
    split; reflexivity.
Qed.

(** * The normalizers *)

(** C3, as the code has it. For every float64 input (an ndarray or a list
    of floats) and every pair of float bounds (those with
    [max_val != min_val] among them), [Normalize(image, min_val, max_val)]
    returns an array whose every element is
    [clamp((value - min_val) / (max_val - min_val), 0, 1)]. With bounds 0 and
    1, an element already within [0, 1] comes back numerically equal to
    itself (and as the same float, unless it is the negative zero, which
    comes back as the positive zero), an element below 0 becomes 0, one above
    1 becomes 1, and whatever is not a NaN ends within [0, 1]. *)
Theorem Normalize_rescale_clamp (h : heap float) (image : ref) (o : pyobj float) :
  h !! image = Some o ->
  (forall min_val max_val : float,
     returned (Values.Normalize image min_val max_val h)
     = Some (NdArray (map (Spec.normalize1 min_val max_val) (data_of o)))) /\
  (exists out : list float,
     returned (Values.Normalize image 0 1 h) = Some (NdArray out) /\
     Forall2 (fun v w : float =>
        ((0 <=? v)%float = true -> (v <=? 1)%float = true ->
           (w =? v)%float = true /\ (v <> neg_zero -> w = v)) /\
        ((v <? 0)%float = true -> w = 0%float) /\
        ((1 <? v)%float = true -> w = 1%float) /\
        (is_nan v = false -> (0 <=? w)%float = true /\ (w <=? 1)%float = true))
       (data_of o) out).
Proof.
  intros H.
  assert (R : forall lo hi,
             returned (Values.Normalize image lo hi h)
             = Some (NdArray (map (Spec.normalize1 lo hi) (data_of o)))).
  { intros lo hi. rewrite (Normalize_run h image o lo hi H). cbn [returned].
    apply lookup_snoc. }
  split; [exact R|].
  exists (map (Spec.normalize1 0 1) (data_of o)). split; [apply R|].
  clear R. generalize (data_of o). intros d.
  induction d as [|v d IH]; cbn [map]; constructor; [|exact IH].
  unfold Spec.normalize1. rewrite rescale_0_1.
  split; [|split; [|split]].
  - apply clamp_inside.
  - apply clamp_below.
  - apply clamp_above.
  - apply clamp_range.
Qed.

Lemma Normalize_rescale_clamp_witness :
  returned (Values.Normalize 0%nat 0 1 [PyList [0.5%float; 2%float; (-3)%float]])
  = Some (NdArray (map (Spec.normalize1 0 1) [0.5%float; 2%float; (-3)%float])).
Proof.
  exact (proj1 (Normalize_rescale_clamp
                  [PyList [0.5%float; 2%float; (-3)%float]] 0%nat
                  (PyList [0.5%float; 2%float; (-3)%float]) eq_refl) 0%float 1%float).
Defined.

(** C3, as the claim words it, fails on an array of an integer dtype with
    int bounds: on the uint8 array [[0, 100, 250]] with bounds 50 and 200
    the difference [0 - 50] is taken in uint8 and is 206, so the first
    element returned is [clip(206 / 150) = 1], where
    [clamp((0 - 50) / (200 - 50), 0, 1)] is 0. *)
Lemma Normalize_wraps_on_uint8 :
  exists out : list float,
    Values.Normalize_int Npy.uint8 [0; 100; 250] 50 200 = Ok out /\
    out !! 0%nat = Some 1%float /\
    Spec.normalize1 (Npy.int_to_float64 50) (Npy.int_to_float64 200)
                    (Npy.int_to_float64 0) = 0%float /\
    out <> map (fun x => Spec.normalize1 (Npy.int_to_float64 50)
                                         (Npy.int_to_float64 200)
                                         (Npy.int_to_float64 x))
               [0; 100; 250].
Proof.
  eexists. split; [vm_compute; reflexivity|].
  split; [reflexivity|]. split; [vm_compute; reflexivity|].
  intros E.
  apply (f_equal (fun l => match l with
                           | x :: _ => (x =? 1)%float
                           | [] => false
                           end)) in E.
  vm_compute in E. discriminate E.
Qed.



(** Away from the infinities, [nan_to_num] is the replacement of NaN. *)
Lemma nan_to_num1_finite (v x : float) :
  is_infinity x = false -> Npy.nan_to_num1 v x = Spec.replace_nan v x.
Proof.
  rewrite is_infinity_spec. intros I. unfold Npy.nan_to_num1, Spec.replace_nan.
  destruct (is_nan x); [reflexivity|].
  rewrite !FloatAxioms.eqb_spec, Prim2SF_infinity, Prim2SF_neg_infinity.
  destruct (Prim2SF x) as [[]|[]| |[] m e]; try discriminate; reflexivity.
Qed.

Lemma nan_to_num1_nan (v x : float) : is_nan x = true -> Npy.nan_to_num1 v x = v.
Proof. intros N. unfold Npy.nan_to_num1. rewrite N. reflexivity. Qed.

Lemma nan_to_num_finite (d : list float) (v : float) :
  Forall (fun x => is_infinity x = false) d ->
  Npy.nan_to_num d v = map (Spec.replace_nan v) d.
Proof.
  unfold Npy.nan_to_num. induction 1 as [|x d I _ IH]; cbn [map]; [reflexivity|].
  rewrite IH, (nan_to_num1_finite v x I). reflexivity.
Qed.

Lemma nan_to_num_all_nan (d : list float) (v : float) :
  Forall (fun x => is_nan x = true) d ->
  Npy.nan_to_num d v = map (fun _ => v) d.
Proof.
  unfold Npy.nan_to_num. induction 1 as [|x d N _ IH]; cbn [map]; [reflexivity|].
  rewrite IH, (nan_to_num1_nan v x N). reflexivity.
Qed.

Lemma nan_to_num_lookup_nan (d : list float) (v : float) (i : nat) (x : float) :
  d !! i = Some x -> is_nan x = true -> Npy.nan_to_num d v !! i = Some v.
Proof.
  intros Hx N. unfold Npy.nan_to_num.
  revert i Hx. induction d as [|y d IH]; intros [|i] Hx; try discriminate.
  - injection Hx as ->. cbn. rewrite (nan_to_num1_nan v x N). reflexivity.
  - cbn. apply IH. exact Hx.
Qed.

(** Overwriting a NaN by something that is not a NaN changes the array. *)
Lemma nan_to_num_changes (d : list float) (v : float) :
  Exists (fun x => is_nan x = true) d -> is_nan v = false ->
  Npy.nan_to_num d v <> d.
Proof.
  intros Ex Nv. unfold Npy.nan_to_num.
  induction Ex as [x d N|x d _ IH]; cbn [map]; intros E; injection E as E1 E2.
  - rewrite (nan_to_num1_nan v x N) in E1. congruence.
  - apply IH. exact E2.
Qed.

Lemma HUNorm_returned (h : heap float) (image : ref) (o : pyobj float)
      (lo hi v : float) :
  h !! image = Some o ->
  returned (Values.HUNorm image lo hi v h)
  = Some (NdArray (map (Spec.normalize1 lo hi) (Npy.nan_to_num (data_of o) v))).
Proof.
  intros H. destruct o as [d|l].
  - rewrite (HUNorm_run_ndarray h image d lo hi v H). cbn [returned data_of].
    rewrite <- (length_insert h image (NdArray (Npy.nan_to_num d v))).
    apply lookup_snoc.
  - rewrite (HUNorm_run_list h image l lo hi v H). cbn [returned data_of].
    replace (S (length h)) with (length (h ++ [NdArray (Npy.nan_to_num l v)]))
      by (rewrite length_app, Nat.add_1_r; reflexivity).
    apply lookup_snoc.
Qed.

Lemma Normalize_returned (h : heap float) (image : ref) (o : pyobj float)
      (lo hi : float) :
  h !! image = Some o ->
  returned (Values.Normalize image lo hi h)
  = Some (NdArray (map (Spec.normalize1 lo hi) (data_of o))).
Proof.
  intros H. rewrite (Normalize_run h image o lo hi H). cbn [returned].
  apply lookup_snoc.
Qed.

(** C4, as the code has it. [HUNorm(image, HU_min, HU_max, HU_nan)] returns
    [Normalize] with the same bounds of the array [nan_to_num] leaves, in
    which NaN is replaced by [HU_nan] and the two infinities by the extreme
    finite values. So on an input with no infinite voxel it returns what
    [Normalize] returns on the array with every NaN replaced by [HU_nan];
    and on an all-NaN input every voxel of the result is the one value
    [Normalize(HU_nan, HU_min, HU_max)]. *)
Theorem HUNorm_refines_Normalize (h : heap float) (image : ref) (o : pyobj float)
        (HU_min HU_max HU_nan : float) :
  h !! image = Some o ->
  returned (Values.HUNorm image HU_min HU_max HU_nan h)
  = Some (NdArray (map (Spec.normalize1 HU_min HU_max)
                       (Npy.nan_to_num (data_of o) HU_nan))) /\
  (Forall (fun x => is_infinity x = false) (data_of o) ->
   forall (h2 : heap float) (image2 : ref),
     h2 !! image2 = Some (NdArray (map (Spec.replace_nan HU_nan) (data_of o))) ->
     returned (Values.HUNorm image HU_min HU_max HU_nan h)
     = returned (Values.Normalize image2 HU_min HU_max h2)) /\
  (Forall (fun x => is_nan x = true) (data_of o) ->
   forall (h3 : heap float) (image3 : ref),
     h3 !! image3 = Some (NdArray [HU_nan]) ->
     exists c : float,
       returned (Values.Normalize image3 HU_min HU_max h3) = Some (NdArray [c]) /\
       returned (Values.HUNorm image HU_min HU_max HU_nan h)
       = Some (NdArray (map (fun _ => c) (data_of o)))).
Proof.
  intros H. pose proof (HUNorm_returned h image o HU_min HU_max HU_nan H) as R.
  split; [exact R|]. split.
  - intros Fin h2 image2 H2. rewrite R.
    rewrite (Normalize_returned h2 image2 _ HU_min HU_max H2). cbn [data_of].
    rewrite (nan_to_num_finite _ HU_nan Fin). reflexivity.
  - intros AllNan h3 image3 H3. exists (Spec.normalize1 HU_min HU_max HU_nan).
    split.
    + rewrite (Normalize_returned h3 image3 _ HU_min HU_max H3). reflexivity.
    + rewrite R, (nan_to_num_all_nan _ HU_nan AllNan), map_map. reflexivity.
Qed.

Lemma HUNorm_refines_Normalize_witness :
  returned (Values.HUNorm 0%nat (-1000) 600 (-2000)
              [NdArray [nan; 100%float]; NdArray [(-2000)%float; 100%float]])
  = returned (Values.Normalize 1%nat (-1000) 600
                [NdArray [nan; 100%float]; NdArray [(-2000)%float; 100%float]]).
Proof.
  refine (proj1 (proj2 (HUNorm_refines_Normalize
                   [NdArray [nan; 100%float]; NdArray [(-2000)%float; 100%float]]
                   0%nat (NdArray [nan; 100%float])
                   (-1000)%float 600%float (-2000)%float eq_refl))
                _
                [NdArray [nan; 100%float]; NdArray [(-2000)%float; 100%float]]
                1%nat eq_refl).
  repeat constructor.
Defined.

(** C4, as the claim words it, fails on an infinite voxel: with bounds
    [-max] and [max] (the extreme finite floats) and the one voxel [-inf],
    [HUNorm] returns 0 while [Normalize] of the NaN-replaced array (which
    still holds [-inf]) returns a NaN. *)
Lemma HUNorm_differs_on_infinity :
  Spec.replace_nan 0 neg_infinity = neg_infinity /\
  returned (Values.HUNorm 0%nat Npy.finfo_min Npy.finfo_max 0
              [NdArray [neg_infinity]])
  = Some (NdArray [0%float]) /\
  returned (Values.Normalize 0%nat Npy.finfo_min Npy.finfo_max
              [NdArray (map (Spec.replace_nan 0) [neg_infinity])])
  = Some (NdArray [nan]) /\
  returned (Values.HUNorm 0%nat Npy.finfo_min Npy.finfo_max 0
              [NdArray [neg_infinity]])
  <> returned (Values.Normalize 0%nat Npy.finfo_min Npy.finfo_max
                 [NdArray (map (Spec.replace_nan 0) [neg_infinity])]).
Proof.
  split; [reflexivity|]. split; [vm_compute; reflexivity|].
  split; [vm_compute; reflexivity|].
  intros E.
  apply (f_equal (fun r => match r with
                           | Some (NdArray [x]) => is_nan x
                           | _ => false
                           end)) in E.
  vm_compute in E. discriminate E.
Qed.

(** C10. On an ndarray, [HUNorm] overwrites the caller's array with the
    result of [nan_to_num] (every NaN entry becomes [HU_nan]; with a NaN in
    the array and [HU_nan] not itself a NaN the array is no longer what it
    was), leaves every other object alone, and returns a new array computed
    from the overwritten one. [Normalize] leaves everything on the heap as it
    was and returns a new array. *)
Theorem HUNorm_in_place_Normalize_fresh (h : heap float) (image : ref)
        (d : list float) :
  h !! image = Some (NdArray d) ->
  (forall HU_min HU_max HU_nan : float,
     exists (r : ref) (h' : heap float),
       Values.HUNorm image HU_min HU_max HU_nan h = Ok (r, h') /\
       h' !! image = Some (NdArray (Npy.nan_to_num d HU_nan)) /\
       (forall (i : nat) (x : float),
          d !! i = Some x -> is_nan x = true ->
          Npy.nan_to_num d HU_nan !! i = Some HU_nan) /\
       (Exists (fun x => is_nan x = true) d -> is_nan HU_nan = false ->
        h' !! image <> h !! image) /\
       (forall (p : ref) (o : pyobj float),
          p <> image -> h !! p = Some o -> h' !! p = Some o) /\
       h !! r = None /\
       h' !! r = Some (NdArray (map (Spec.normalize1 HU_min HU_max)
                                    (Npy.nan_to_num d HU_nan)))) /\
  (forall min_val max_val : float,
     exists (r : ref) (h' : heap float),
       Values.Normalize image min_val max_val h = Ok (r, h') /\
       (forall (p : ref) (o : pyobj float), h !! p = Some o -> h' !! p = Some o) /\
       h !! r = None /\
       h' !! r = Some (NdArray (map (Spec.normalize1 min_val max_val) d))).
Proof.
  intros H. split.
  - intros lo hi v. eexists _, _. split; [apply (HUNorm_run_ndarray h image d lo hi v H)|].
    unfold heap, ref in *.
    assert (Hi : (image < length h)%nat) by (apply lookup_lt_is_Some; eauto).
    split; [|split; [|split; [|split; [|split]]]].
    + apply lookup_snoc_old. apply list_lookup_insert_eq. exact Hi.
    + intros i x Hx N. exact (nan_to_num_lookup_nan d v i x Hx N).
    + intros Ex Nv E.
      rewrite (lookup_snoc_old _ _ _ _ (list_lookup_insert_eq h image _ Hi)), H in E.
      injection E as E. exact (nan_to_num_changes d v Ex Nv E).
    + intros p o Hp Ho. apply lookup_snoc_old.
      rewrite list_lookup_insert_ne by congruence. exact Ho.
    + apply lookup_fresh.
    + rewrite <- (length_insert h image (NdArray (Npy.nan_to_num d v))).
      apply lookup_snoc.
  - intros lo hi. eexists _, _.
    split; [apply (Normalize_run h image (NdArray d) lo hi H)|].
    cbn [isinstance_ndarray data_of]. split; [|split].
    + intros p o Ho. apply lookup_snoc_old. exact Ho.
    + apply lookup_fresh.
    + apply lookup_snoc.
Qed.

Lemma HUNorm_in_place_Normalize_fresh_witness :
  exists (r : ref) (h' : heap float),
    Values.HUNorm 0%nat 0 1 0.5 [NdArray [nan; 0.25%float; 3%float]] = Ok (r, h') /\
    h' !! 0%nat = Some (NdArray (Npy.nan_to_num [nan; 0.25%float; 3%float] 0.5)).
Proof.
  destruct (proj1 (HUNorm_in_place_Normalize_fresh
                     [NdArray [nan; 0.25%float; 3%float]] 0%nat
                     [nan; 0.25%float; 3%float] eq_refl) 0%float 1%float 0.5%float)
    as (r & h' & E & I & _).
  exists r, h'. split; [exact E|exact I].
Defined.

(** * [label_remap] *)

(** Assigning through the mask of [label == key] is the replacement of every
    occurrence of [key]. *)
Lemma masked_assign_eq (d : list Z) (key val : Z) :
  Values.masked_assign d (map (fun x => Z.eqb x key) d) val
  = Spec.replace_all key val d.
Proof.
  unfold Spec.replace_all. induction d as [|x d IH]; [reflexivity|].
  cbn [map Values.masked_assign]. rewrite IH. reflexivity.
Qed.

Lemma masked_assign_length (d : list Z) (m : list bool) (val : Z) :
  length (Values.masked_assign d m val) = length d.
Proof.
  revert m. induction d as [|x d IH]; intros [|b m]; cbn; try reflexivity.
  rewrite IH. reflexivity.
Qed.

(** A value the dtype holds is stored as it is, under either numpy. *)
Lemma cast_int_in_range (nv : Npy.numpy_version) (t : Npy.int_dtype) (x : Z) :
  Npy.in_range t x = true -> Npy.cast_int nv t x = Ok x.
Proof. intros H. unfold Npy.cast_int. rewrite H. reflexivity. Qed.

Lemma cast_values_in_range (nv : Npy.numpy_version) (t : Npy.int_dtype)
      (kvs : list (Z * Z)) :
  Forall (fun kv => Npy.in_range t (snd kv) = true) kvs ->
  Spec.cast_values nv t kvs = Ok kvs.
Proof.
  induction 1 as [|[k v] kvs H _ IH]; [reflexivity|].
  cbn [Spec.cast_values]. rewrite (cast_int_in_range nv t _ H), IH. reflexivity.
Qed.

(** One pass of the loop over an ndarray. *)
Lemma remap_pass_ndarray (nv : Npy.numpy_version) (t : Npy.int_dtype)
      (h : heap Z) (label : ref) (d : list Z) (kv : Z * Z) :
  h !! label = Some (NdArray d) ->
  Values.remap_pass nv t label kv h
  = match Npy.cast_int nv t (snd kv) with
    | Ok v => Ok (tt, <[label := NdArray (Spec.replace_all (fst kv) v d)]> h)
    | Raise e => Raise e
    end.
Proof.
  intros H. unfold Values.remap_pass, bind, deref, assign, raise.
  unfold heap, ref in *. rewrite H.
  cbn [Values.py_eq Values.setitem].
  destruct (Npy.cast_int nv t (snd kv)) as [v|e]; [|reflexivity].
  rewrite H, masked_assign_eq. reflexivity.
Qed.

(** One pass over a list: [label == key] is [False], and [label[False]] is
    [label[0]]. *)
Lemma remap_pass_list (nv : Npy.numpy_version) (t : Npy.int_dtype)
      (h : heap Z) (label : ref) (x : Z) (l : list Z) (kv : Z * Z) :
  h !! label = Some (PyList (x :: l)) ->
  Values.remap_pass nv t label kv h
  = Ok (tt, <[label := PyList (snd kv :: l)]> h).
Proof.
  intros H. unfold Values.remap_pass, bind, deref, assign.
  unfold heap, ref in *. rewrite H.
  cbn [Values.py_eq Values.setitem length Nat.ltb Nat.leb].
  rewrite H. reflexivity.
Qed.

Lemma remap_pass_empty_list (nv : Npy.numpy_version) (t : Npy.int_dtype)
      (h : heap Z) (label : ref) (kv : Z * Z) :
  h !! label = Some (PyList []) ->
  Values.remap_pass nv t label kv h = Raise IndexError.
Proof.
  intros H. unfold Values.remap_pass, bind, deref.
  unfold heap, ref in *. rewrite H. reflexivity.
Qed.

(** The whole loop over an ndarray. *)
Lemma for_each_remap_ndarray (nv : Npy.numpy_version) (t : Npy.int_dtype)
      (label : ref) (kvs : list (Z * Z)) :
  forall (h : heap Z) (d : list Z),
    h !! label = Some (NdArray d) ->
    for_each kvs (Values.remap_pass nv t label) h
    = match Spec.cast_values nv t kvs with
      | Ok kvs' => Ok (tt, <[label := NdArray (Spec.remap_sequential kvs' d)]> h)
      | Raise e => Raise e
      end.
Proof.
  unfold heap, ref in *.
  induction kvs as [|kv kvs IH]; intros h d H.
  - cbn. rewrite list_insert_id by exact H. reflexivity.
  - cbn [for_each Spec.cast_values]. unfold bind at 1.
    rewrite (remap_pass_ndarray nv t h label d kv H).
    destruct (Npy.cast_int nv t (snd kv)) as [v|e]; [|reflexivity].
    assert (Hi : (label < length h)%nat) by (apply lookup_lt_is_Some; eauto).
    rewrite (IH _ (Spec.replace_all (fst kv) v d))
      by (apply list_lookup_insert_eq; exact Hi).
    destruct (Spec.cast_values nv t kvs) as [kvs'|e]; [|reflexivity].
    unfold heap, ref in *. rewrite list_insert_insert_eq. reflexivity.
Qed.

Lemma last_cons_default {A : Type} (m : list A) :
  forall a x : A, List.last (a :: m) x = List.last m a.
Proof.
  induction m as [|b m IH]; intros a x; [reflexivity|].
  change (List.last (a :: b :: m) x) with (List.last (b :: m) x).
  rewrite (IH b x), (IH b a). reflexivity.
Qed.

(** The whole loop over a non-empty list: every pass overwrites element 0. *)
Lemma for_each_remap_list (nv : Npy.numpy_version) (t : Npy.int_dtype)
      (label : ref) (kvs : list (Z * Z)) :
  forall (h : heap Z) (x : Z) (l : list Z),
    h !! label = Some (PyList (x :: l)) ->
    for_each kvs (Values.remap_pass nv t label) h
    = Ok (tt, <[label := PyList (List.last (map snd kvs) x :: l)]> h).
Proof.
  unfold heap, ref in *.
  induction kvs as [|kv kvs IH]; intros h x l H.
  - cbn. rewrite list_insert_id by exact H. reflexivity.
  - cbn [for_each]. unfold bind at 1.
    rewrite (remap_pass_list nv t h label x l kv H).
    assert (Hi : (label < length h)%nat) by (apply lookup_lt_is_Some; eauto).
    rewrite (IH _ (snd kv) l) by (apply list_lookup_insert_eq; exact Hi).
    unfold heap, ref in *. rewrite list_insert_insert_eq.
    cbn [map]. rewrite last_cons_default. reflexivity.
Qed.

(** A run of [label_remap] on an ndarray. *)
Lemma label_remap_ndarray_run (nv : Npy.numpy_version) (t : Npy.int_dtype)
      (h : heap Z) (label : ref) (d : list Z) (kvs : list (Z * Z)) :
  h !! label = Some (NdArray d) ->
  Values.label_remap nv t label (Some kvs) h
  = match Spec.cast_values nv t kvs with
    | Ok kvs' => Ok (label, <[label := NdArray (Spec.remap_sequential kvs' d)]> h)
    | Raise e => Raise e
    end.
Proof.
  intros H. pose proof (for_each_remap_ndarray nv t label kvs h d H) as F.
  unfold Values.label_remap, bind at 1, deref. unfold heap, ref in *. rewrite H.
  cbn [isinstance_ndarray negb]. unfold Values.dict_items, bind, ret.
  rewrite F. destruct (Spec.cast_values nv t kvs); reflexivity.
Qed.

(** C5. On an ndarray of any integer dtype, under either numpy,
    [label_remap] carries out the pairs of the map one after the other in
    the map's iteration order, each as a replacement over the whole array as
    the earlier pairs left it, with the value as the array's dtype takes it;
    it writes the outcome into the caller's array and returns that array,
    unless a value does not convert, which raises. When the dtype holds
    every value of the map, the outcome is the sequential remap by the map
    as written. With [{1: 2, 2: 1}] on [[1, 2, 1, 2]] the first pass gives
    [[2, 2, 2, 2]] and the second [[1, 1, 1, 1]]. *)
Theorem label_remap_sequential (nv : Npy.numpy_version) (t : Npy.int_dtype)
        (h : heap Z) (label : ref) (d : list Z) (kvs : list (Z * Z)) :
  h !! label = Some (NdArray d) ->
  Values.label_remap nv t label (Some kvs) h
  = match Spec.cast_values nv t kvs with
    | Ok kvs' => Ok (label, <[label := NdArray (Spec.remap_sequential kvs' d)]> h)
    | Raise e => Raise e
    end /\
  (Forall (fun kv => Npy.in_range t (snd kv) = true) kvs ->
   Values.label_remap nv t label (Some kvs) h
   = Ok (label, <[label := NdArray (Spec.remap_sequential kvs d)]> h)) /\
  Values.label_remap nv t 0%nat (Some [(1, 2); (2, 1)]) [NdArray [1; 2; 1; 2]]
  = Ok (0%nat, [NdArray [1; 1; 1; 1]]).
Proof.
  intros H. pose proof (label_remap_ndarray_run nv t h label d kvs H) as R.
  split; [exact R|]. split.
  - intros Hr. rewrite R, (cast_values_in_range nv t kvs Hr). reflexivity.
  - destruct nv, t; reflexivity.
Qed.

Lemma label_remap_sequential_witness :
  Values.label_remap Npy.Numpy2 Npy.uint8 1%nat (Some [(3, 4); (4, 5)])
                     [NdArray [0]; NdArray [3; 4; 7]]
  = Ok (1%nat, <[1%nat := NdArray (Spec.remap_sequential [(3, 4); (4, 5)] [3; 4; 7])]>
                 [NdArray [0]; NdArray [3; 4; 7]]).
Proof.
  apply (proj1 (proj2 (label_remap_sequential Npy.Numpy2 Npy.uint8
                         [NdArray [0]; NdArray [3; 4; 7]] 1%nat
                         [3; 4; 7] [(3, 4); (4, 5)] eq_refl))).
  repeat constructor.
Defined.

(** C9. What the call does on a plain list, by the slip of line 39 (the
    converted array is bound to [image], where [Normalize] and [HUNorm]
    rebind their argument): the converted array goes into a new object that
    nothing reads afterwards and the list it was given is returned. Every
    pass of the loop is [label[False] = val], an assignment to element 0:
    the call raises [IndexError] when the list is empty and the map is not,
    and otherwise returns the list with its first element overwritten by the
    map's last value (unchanged when the map is empty); no element is
    remapped. *)
Theorem label_remap_on_list (nv : Npy.numpy_version) (t : Npy.int_dtype)
        (h : heap Z) (label : ref) (l : list Z) (kvs : list (Z * Z)) :
  h !! label = Some (PyList l) ->
  Values.label_remap nv t label (Some kvs) h
  = match l, kvs with
    | [], _ :: _ => Raise IndexError
    | [], [] => Ok (label, h ++ [NdArray []])
    | x :: l', _ =>
        Ok (label,
            <[label := PyList (List.last (map snd kvs) x :: l')]> (h ++ [NdArray l]))
    end.
Proof.
  intros H.
  pose proof (lookup_snoc_old h (NdArray l) label _ H) as H1.
  assert (F : for_each kvs (Values.remap_pass nv t label) (h ++ [NdArray l])
              = match l, kvs with
                | [], _ :: _ => Raise IndexError
                | [], [] => Ok (tt, h ++ [NdArray []])
                | x :: l', _ =>
                    Ok (tt, <[label := PyList (List.last (map snd kvs) x :: l')]>
                              (h ++ [NdArray l]))
                end).
  { destruct l as [|x l'].
    - destruct kvs as [|kv kvs]; [reflexivity|].
      cbn [for_each]. unfold bind.
      rewrite (remap_pass_empty_list nv t _ label kv H1). reflexivity.
    - apply (for_each_remap_list nv t label kvs _ x l' H1). }
  unfold Values.label_remap, bind at 1, deref. unfold heap, ref in *. rewrite H.
  cbn [isinstance_ndarray negb np_array].
  unfold Values.dict_items, bind, alloc, ret. rewrite F.
  destruct l as [|x l']; [destruct kvs|]; reflexivity.
Qed.

Lemma label_remap_on_list_witness :
  Values.label_remap Npy.Numpy2 Npy.int64 0%nat (Some [(1, 2); (2, 9)])
                     [PyList [5; 6]]
  = Ok (0%nat, [PyList [9; 6]; NdArray [5; 6]]).
Proof.
  exact (label_remap_on_list Npy.Numpy2 Npy.int64 [PyList [5; 6]] 0%nat [5; 6]
           [(1, 2); (2, 9)] eq_refl).
Defined.

(** On the list [[5, 6]] with the map [{5: 7}] the call raises nothing; it
    returns the list as [[7, 6]]. *)
Lemma label_remap_list_does_not_fail :
  Values.label_remap Npy.Numpy2 Npy.int64 0%nat (Some [(5, 7)]) [PyList [5; 6]]
  = Ok (0%nat, [PyList [7; 6]; NdArray [5; 6]]) /\
  forall e : exn,
    Values.label_remap Npy.Numpy2 Npy.int64 0%nat (Some [(5, 7)]) [PyList [5; 6]]
    <> Raise e.
Proof.
  split; [reflexivity|]. intros e. discriminate.
Qed.

(** * [evaluate] *)

Section EvaluateFacts.
Context {F : Val.Framework}.

Lemma bind_Ok_inv {S A B : Type} (m : M S A) (k : A -> M S B) (s : S) (r : B * S) :
  bind m k s = Ok r -> exists a s', m s = Ok (a, s') /\ k a s' = Ok r.
Proof.
  unfold bind. destruct (m s) as [[a s']|e]; [|discriminate].
  intros H. exists a, s'. split; [reflexivity|exact H].
Qed.

Lemma batch_up_singletons (idxs : list nat) :
  Val.batch_up 1 false idxs [] = map (fun i => [i]) idxs.
Proof.
  induction idxs as [|i idxs IH]; [reflexivity|].
  cbn. rewrite IH. reflexivity.
Qed.

Lemma sampler_len_num_samples (env : Val.ParallelEnv) (n : nat) :
  Val.sampler_len env n 1 false = Val.num_samples n (Val.nranks env).
Proof.
  unfold Val.sampler_len. cbn [Nat.sub Nat.mul]. rewrite Nat.add_0_r, Nat.div_1_r.
  reflexivity.
Qed.

Lemma sampler_iter_inv (env : Val.ParallelEnv) (n : nat) (bs : list (list nat)) :
  Val.sampler_iter env n 1 false = Ok bs ->
  exists idxs, bs = map (fun i => [i]) idxs /\
               length idxs = Val.sampler_len env n 1 false.
Proof.
  rewrite sampler_len_num_samples. unfold Val.sampler_iter.
  destruct (negb _); [discriminate|].
  match goal with |- context [Val.batch_up 1 false ?l []] => set (idxs := l) end.
  destruct (negb _) eqn:E; [discriminate|].
  intros H. injection H as <-. exists idxs. split; [apply batch_up_singletons|].
  apply negb_false_iff, Nat.eqb_eq in E. exact E.
Qed.

Lemma num_samples_1 (n : nat) : Val.num_samples n 1 = n.
Proof.
  unfold Val.num_samples, Val.ceil_div. rewrite Nat.div_1_r. lia.
Qed.

Lemma sampler_iter_single (env : Val.ParallelEnv) (n : nat) :
  Val.nranks env = 1%nat ->
  Val.sampler_iter env n 1 false = Ok (map (fun i => [i]) (seq 0 n)).
Proof.
  intros E. unfold Val.sampler_iter, Val.total_size. rewrite E, num_samples_1.
  rewrite Nat.mul_1_r, length_seq, Nat.sub_diag. cbn [take].
  rewrite app_nil_r, length_seq, Nat.eqb_refl. cbn [negb Nat.ltb Nat.leb].
  rewrite length_seq, Nat.eqb_refl. cbn [negb]. rewrite batch_up_singletons.
  reflexivity.
Qed.

(** With no sample, every rank's sampler yields nothing. *)
Lemma sampler_iter_empty (env : Val.ParallelEnv) :
  Val.sampler_iter env 0 1 false = Ok [].
Proof.
  unfold Val.sampler_iter, Val.total_size, Val.num_samples, Val.ceil_div.
  assert (Z0 : ((0 + Val.nranks env - 1) / Val.nranks env = 0)%nat).
  { destruct (Val.nranks env) as [|k]; [reflexivity|].
    apply Nat.div_small. lia. }
  rewrite Z0. cbn [Nat.mul seq Nat.sub take app length Nat.eqb negb].
  destruct (1 <? Val.nranks env)%nat; [|reflexivity].
  unfold Val.subsample. cbn [length Val.py_range flat_map app Nat.sub drop].
  unfold Val.slice. rewrite !drop_nil, take_nil. reflexivity.
Qed.

Lemma sampler_len_empty (env : Val.ParallelEnv) :
  Val.sampler_len env 0 1 false = 0%nat.
Proof.
  rewrite sampler_len_num_samples. unfold Val.num_samples, Val.ceil_div.
  destruct (Val.nranks env) as [|k]; [reflexivity|]. apply Nat.div_small. lia.
Qed.

(** C2. On an empty dataset the sampler of every rank yields no batch and
    reports a length of 0, the loop body never runs, [mdice] is still the
    Python float [0.0], and [mdice /= total_iters] raises
    [ZeroDivisionError]: that is how the call ends, whatever the other
    arguments. *)
Theorem evaluate_empty_dataset (env : Val.ParallelEnv) (num_classes num_workers : nat)
        (print_detail auc_roc : bool) (writer : option unit)
        (save_dir : option string) (w : Val.world) :
  Val.sampler_len env 0 1 false = 0%nat /\
  Val.sampler_iter env 0 1 false = Ok [] /\
  Val.itruediv_int (Val.mdice Val.locals_init) 0 = Raise ZeroDivisionError /\
  Val.evaluate env [] num_classes num_workers print_detail auc_roc writer save_dir w
  = Raise ZeroDivisionError.
Proof.
  split; [apply sampler_len_empty|]. split; [apply sampler_iter_empty|].
  split; [reflexivity|].
  unfold Val.evaluate. cbn [length]. rewrite sampler_iter_empty, sampler_len_empty.
  destruct print_detail; reflexivity.
Qed.

(** One iteration on a batch of one. *)
Lemma iteration_eq (env : Val.ParallelEnv) (ds : list (Val.tensor * Val.tensor))
      (pd auc : bool) (writer : option unit) (sd : option string)
      (it idx : nat) (st : Val.locals) (w : Val.world) (s : Val.tensor * Val.tensor) :
  ds !! idx = Some s ->
  Val.iteration env ds pd auc writer sd it [idx] st w
  = match Val.sum_loss (loss_of s) with
    | Raise e => Raise e
    | Ok loss =>
        match (if (length (Val.channel_dice_array st) =? 0)%nat
               then Ok (dice_of s)
               else Val.iadd_array (Val.channel_dice_array st) (dice_of s)) with
        | Raise e => Raise e
        | Ok cda =>
            Ok ({| Val.logits_all :=
                     fst (Val.collect_auc auc (logits_of s) (label_of s) st);
                   Val.label_all :=
                     snd (Val.collect_auc auc (logits_of s) (label_of s) st);
                   Val.mdice := Val.iadd_np (Val.mdice st) (mean_dice s);
                   Val.channel_dice_array := cda;
                   Val.loss_all := Val.iadd_np (Val.loss_all st) loss |},
                {| Val.trace := Val.trace w ++ iter_trace env pd sd it idx s;
                   Val.files := iter_files sd it s (Val.files w) |})
        end
    end.
Proof.
  intros H. unfold Val.iteration, Val.fetch, bind, Val.emit, ret, lift.
  rewrite H. cbn beta iota.
  change (fst (Val.collate [s])) with (im_of s).
  change (Val.astype_int64 (snd (Val.collate [s]))) with (label_of s).
  unfold mean_dice, dice_of, loss_of, iter_trace, iter_files, iter_saves.
  change (Val.inference (im_of s) (Val.shape_last3 (label_of s))).2
    with (logits_of s).
  change (Val.inference (im_of s) (Val.shape_last3 (label_of s))).1
    with (pred_of s).
  destruct (Val.sum_loss _) as [loss|e]; [|destruct sd; reflexivity].
  destruct (length (Val.channel_dice_array st) =? 0)%nat;
    [|destruct (Val.iadd_array _ _) as [cda|e]; [|destruct sd; reflexivity]];
    destruct sd as [dir|]; destruct ((Val.local_rank env =? 0)%nat && pd);
    unfold Val.save_outputs, Val.np_save, Val.emit, bind, ret;
    cbn [Val.trace Val.files]; repeat rewrite <- app_assoc; reflexivity.
Qed.


Lemma iteration_bad_index (env : Val.ParallelEnv) (ds : list (Val.tensor * Val.tensor))
      (pd auc : bool) (writer : option unit) (sd : option string)
      (it idx : nat) (st : Val.locals) (w : Val.world) :
  ds !! idx = None ->
  Val.iteration env ds pd auc writer sd it [idx] st w = Raise IndexError.
Proof.
  intros H. unfold Val.iteration, Val.fetch, bind, Val.emit, raise.
  rewrite H. reflexivity.
Qed.

Lemma collect_auc_Some (logits label : Val.tensor) (st : Val.locals) :
  is_Some (Val.collect_auc true logits label st).1 /\
  is_Some (Val.collect_auc true logits label st).2.
Proof.
  unfold Val.collect_auc. destruct (Val.logits_all st); cbn; split; eauto.
Qed.

Lemma iteration_inv (env : Val.ParallelEnv) (ds : list (Val.tensor * Val.tensor))
      (pd auc : bool) (writer : option unit) (sd : option string)
      (it idx : nat) (st st1 : Val.locals) (w w1 : Val.world) :
  Val.iteration env ds pd auc writer sd it [idx] st w = Ok (st1, w1) ->
  exists s,
    ds !! idx = Some s /\
    Val.trace w1 = Val.trace w ++ iter_trace env pd sd it idx s /\
    Val.files w1 = iter_files sd it s (Val.files w) /\
    Val.mdice st1 = Val.iadd_np (Val.mdice st) (mean_dice s) /\
    np_state auc st1.
Proof.
  destruct (ds !! idx) as [s|] eqn:H.
  2:{ rewrite (iteration_bad_index env ds pd auc writer sd it idx st w H).
      discriminate. }
  rewrite (iteration_eq env ds pd auc writer sd it idx st w s H).
  destruct (Val.sum_loss _) as [loss|e]; [|discriminate].
  destruct (if (length (Val.channel_dice_array st) =? 0)%nat then _ else _)
    as [cda|e]; [|discriminate].
  intros E. injection E as <- <-. exists s. cbn [Val.trace Val.files Val.mdice].
  do 4 (split; [reflexivity|]).
  split; [eexists; reflexivity|]. split; [eexists; reflexivity|].
  cbn [Val.logits_all Val.label_all]. intros ->. apply collect_auc_Some.
Qed.

Lemma loop_inv (env : Val.ParallelEnv) (ds : list (Val.tensor * Val.tensor))
      (pd auc : bool) (writer : option unit) (sd : option string)
      (idxs : list nat) :
  forall (it : nat) (st st' : Val.locals) (w w' : Val.world),
    Val.loop (Val.iteration env ds pd auc writer sd) it
             (map (fun i => [i]) idxs) st w = Ok (st', w') ->
    exists ss,
      Forall2 (fun i s => ds !! i = Some s) idxs ss /\
      Val.trace w' = Val.trace w ++ run_trace env pd sd it idxs ss /\
      Val.files w' = run_files sd it ss (Val.files w) /\
      Val.float_of (Val.mdice st')
      = fold_left (fun a x => (a + x)%float) (map mean_dice ss)
                  (Val.float_of (Val.mdice st)) /\
      ((idxs = [] /\ st' = st) \/ (idxs <> [] /\ np_state auc st')).
Proof.
  induction idxs as [|idx idxs IH]; intros it st st' w w' H.
  - cbn in H. injection H as <- <-. exists []. cbn.
    rewrite app_nil_r. repeat split; auto.
  - cbn [map Val.loop] in H.
    apply bind_Ok_inv in H as (st1 & w1 & H1 & H).
    apply iteration_inv in H1 as (s & Hs & T1 & F1 & M1 & N1).
    apply IH in H as (ss & Hss & T & Fi & M & N).
    exists (s :: ss). split; [constructor; assumption|].
    split; [|split; [|split]].
    + rewrite T, T1. cbn [run_trace]. rewrite <- app_assoc. reflexivity.
    + rewrite Fi, F1. reflexivity.
    + rewrite M, M1. reflexivity.
    + right. split; [discriminate|]. destruct N as [[_ ->]|[_ N]]; assumption.
Qed.

Lemma loop_ok (env : Val.ParallelEnv) (ds : list (Val.tensor * Val.tensor))
      (pd auc : bool) (writer : option unit) (sd : option string) (k : nat)
      (idxs : list nat) (ss : list (Val.tensor * Val.tensor)) :
  Forall2 (fun i s => ds !! i = Some s) idxs ss ->
  Forall (fun s => loss_of s <> [] /\ length (dice_of s) = k) ss ->
  forall (it : nat) (st : Val.locals) (w : Val.world),
    length (Val.channel_dice_array st) = 0%nat \/
    length (Val.channel_dice_array st) = k ->
    is_ok (Val.loop (Val.iteration env ds pd auc writer sd) it
                    (map (fun i => [i]) idxs) st w) = true.
Proof.
  induction 1 as [|idx s idxs ss Hs _ IH]; intros Hf it st w Hc; [reflexivity|].
  apply Forall_cons in Hf as [[Hl Hk] Hf].
  cbn [map Val.loop]. unfold bind.
  rewrite (iteration_eq env ds pd auc writer sd it idx st w s Hs).
  unfold Val.sum_loss. destruct (loss_of s) as [|l0 ls] eqn:El; [congruence|].
  assert (C : exists cda,
             (if (length (Val.channel_dice_array st) =? 0)%nat
              then Ok (dice_of s)
              else Val.iadd_array (Val.channel_dice_array st) (dice_of s))
             = Ok cda /\ length cda = k).
  { destruct (length (Val.channel_dice_array st) =? 0)%nat eqn:E0.
    - exists (dice_of s). split; [reflexivity|exact Hk].
    - apply Nat.eqb_neq in E0. destruct Hc as [Hc|Hc]; [congruence|].
      unfold Val.iadd_array. rewrite Hc, Hk, Nat.eqb_refl.
      eexists. split; [reflexivity|]. rewrite length_zip_with. lia. }
  destruct C as (cda & -> & Lc). apply IH; [exact Hf|]. right. exact Lc.
Qed.

(** *** Reading the trace *)

Lemma inferences_app (a b : list Val.event) :
  inferences (a ++ b) = inferences a ++ inferences b.
Proof.
  induction a as [|e a IH]; [reflexivity|]. destruct e; cbn; rewrite IH; reflexivity.
Qed.

Lemma getitems_app (a b : list Val.event) :
  getitems (a ++ b) = getitems a ++ getitems b.
Proof.
  induction a as [|e a IH]; [reflexivity|]. destruct e; cbn; rewrite IH; reflexivity.
Qed.

Lemma saves_app (a b : list Val.event) : saves (a ++ b) = saves a ++ saves b.
Proof.
  induction a as [|e a IH]; [reflexivity|]. destruct e; cbn; rewrite IH; reflexivity.
Qed.

Lemma inferences_run_trace (env : Val.ParallelEnv) (pd : bool) (sd : option string)
      (idxs : list nat) (ss : list (Val.tensor * Val.tensor)) :
  length idxs = length ss ->
  forall it, inferences (run_trace env pd sd it idxs ss) = map im_of ss.
Proof.
  revert ss. induction idxs as [|i idxs IH]; intros [|s ss] L it; try discriminate;
    [reflexivity|].
  cbn [run_trace map]. rewrite inferences_app, IH by (injection L; auto).
  unfold iter_trace, iter_saves.
  destruct sd, ((Val.local_rank env =? 0)%nat && pd); reflexivity.
Qed.

Lemma getitems_run_trace (env : Val.ParallelEnv) (pd : bool) (sd : option string)
      (idxs : list nat) (ss : list (Val.tensor * Val.tensor)) :
  length idxs = length ss ->
  forall it, getitems (run_trace env pd sd it idxs ss) = idxs.
Proof.
  revert ss. induction idxs as [|i idxs IH]; intros [|s ss] L it; try discriminate;
    [reflexivity|].
  cbn [run_trace]. rewrite getitems_app, IH by (injection L; auto).
  unfold iter_trace, iter_saves.
  destruct sd, ((Val.local_rank env =? 0)%nat && pd); reflexivity.
Qed.

Lemma saves_run_trace (env : Val.ParallelEnv) (pd : bool) (sd : option string)
      (idxs : list nat) (ss : list (Val.tensor * Val.tensor)) :
  length idxs = length ss ->
  forall it,
    saves (run_trace env pd sd it idxs ss)
    = match sd with Some dir => run_saves dir it ss | None => [] end.
Proof.
  revert ss. induction idxs as [|i idxs IH]; intros [|s ss] L it; try discriminate.
  - destruct sd; reflexivity.
  - cbn [run_trace]. rewrite saves_app, IH by (injection L; auto).
    unfold iter_trace, iter_saves.
    destruct sd, ((Val.local_rank env =? 0)%nat && pd); reflexivity.
Qed.

(** *** The file names *)

Lemma no_underscore_string_of_uint (d : Decimal.uint) :
  no_underscore (NilEmpty.string_of_uint d) = true.
Proof. induction d; cbn; auto. Qed.

Lemma str_of_nat_inj (i j : nat) : Val.str_of_nat i = Val.str_of_nat j -> i = j.
Proof.
  unfold Val.str_of_nat. intros H.
  apply (f_equal NilEmpty.uint_of_string) in H. rewrite !NilEmpty.usu in H.
  injection H as H. apply (f_equal Nat.of_uint) in H.
  rewrite !DecimalNat.Unsigned.of_to in H. exact H.
Qed.

(** Two strings without an underscore, each followed by an underscore and a
    rest: equal wholes have equal parts. *)
Lemma underscore_split (s1 : string) :
  forall (s2 t1 t2 : string),
    no_underscore s1 = true -> no_underscore s2 = true ->
    s1 +:+ String "_" t1 = s2 +:+ String "_" t2 -> s1 = s2 /\ t1 = t2.
Proof.
  induction s1 as [|c1 s1 IH]; intros [|c2 s2] t1 t2 N1 N2 E; cbn in *.
  - injection E as E. auto.
  - injection E as <- _. discriminate N2.
  - injection E as -> _. discriminate N1.
  - injection E as <- E. apply andb_prop in N1 as [_ N1], N2 as [_ N2].
    destruct (IH s2 t1 t2 N1 N2 E) as [-> ->]. auto.
Qed.

Lemma npy_path_inj (dir : string) (i j : nat) (t1 t2 : string) :
  npy_path dir i t1 = npy_path dir j t2 -> i = j /\ t1 = t2.
Proof.
  unfold npy_path. intros E. apply (inj (String.app dir)) in E.
  cbn in E. injection E as E.
  apply underscore_split in E as [E ->];
    try apply no_underscore_string_of_uint.
  split; [apply str_of_nat_inj; exact E|reflexivity].
Qed.

Lemma pred_path_npy (dir : string) (i : nat) :
  pred_path dir i = npy_path dir i "pred.npy".
Proof. reflexivity. Qed.

Lemma label_path_npy (dir : string) (i : nat) :
  label_path dir i = npy_path dir i "label.npy".
Proof. reflexivity. Qed.

Lemma img_path_npy (dir : string) (i : nat) :
  img_path dir i = npy_path dir i "img.npy".
Proof. reflexivity. Qed.

(** Later iterations leave the files of earlier ones alone. *)
Lemma run_files_old (dir : string) (ss : list (Val.tensor * Val.tensor)) :
  forall (it : nat) (fs : gmap string Val.array) (i : nat) (t : string),
    (i < it)%nat ->
    run_files (Some dir) it ss fs !! npy_path dir i t = fs !! npy_path dir i t.
Proof.
  induction ss as [|s ss IH]; intros it fs i t L; [reflexivity|].
  cbn [run_files]. rewrite IH by lia. unfold iter_files.
  rewrite pred_path_npy, label_path_npy, img_path_npy.
  rewrite !lookup_insert_ne; [reflexivity|..];
    intros E; apply npy_path_inj in E as [E _]; lia.
Qed.

(** After the run, the three files of an iteration hold the arrays of its
    sample. *)
Lemma run_files_lookup (dir : string) (ss : list (Val.tensor * Val.tensor)) :
  forall (it : nat) (fs : gmap string Val.array) (k : nat)
         (s : Val.tensor * Val.tensor),
    ss !! k = Some s ->
    run_files (Some dir) it ss fs !! pred_path dir (it + k)
    = Some (Val.numpy (pred_of s)) /\
    run_files (Some dir) it ss fs !! label_path dir (it + k)
    = Some (Val.numpy (label_of s)) /\
    run_files (Some dir) it ss fs !! img_path dir (it + k)
    = Some (Val.numpy (im_of s)).
Proof.
  induction ss as [|s0 ss IH]; intros it fs [|k] s H; try discriminate.
  - injection H as ->. rewrite Nat.add_0_r. cbn [run_files].
    rewrite pred_path_npy, label_path_npy, img_path_npy.
    rewrite !run_files_old by lia. unfold iter_files.
    rewrite pred_path_npy, label_path_npy, img_path_npy.
    split; [|split].
    + rewrite lookup_insert_ne, lookup_insert_ne, lookup_insert_eq; [reflexivity|..];
        intros E; apply npy_path_inj in E as [_ E]; discriminate E.
    + rewrite lookup_insert_ne, lookup_insert_eq; [reflexivity|];
        intros E; apply npy_path_inj in E as [_ E]; discriminate E.
    + rewrite lookup_insert_eq. reflexivity.
  - cbn [run_files]. replace (it + S k)%nat with (S it + k)%nat by lia.
    apply IH. exact H.
Qed.

(** *** The whole run *)

Lemma lift_Ok_inv {S A : Type} (r : result A) (s s' : S) (a : A) :
  lift r s = Ok (a, s') -> r = Ok a /\ s' = s.
Proof. unfold lift. destruct r; [|discriminate]. intros E. injection E as -> ->. auto. Qed.

Lemma Forall2_lookup_functional {A : Type} (ds : list A) (idxs : list nat) :
  forall ss1 ss2 : list A,
    Forall2 (fun i s => ds !! i = Some s) idxs ss1 ->
    Forall2 (fun i s => ds !! i = Some s) idxs ss2 -> ss1 = ss2.
Proof.
  induction idxs as [|i idxs IH]; intros ss1 ss2 H1 H2;
    inversion H1; subst; inversion H2; subst; [reflexivity|].
  f_equal; [congruence|]. apply IH; assumption.
Qed.

Lemma Forall2_lookup_seq {A : Type} (ds : list A) :
  forall pre : list A,
    Forall2 (fun i s => (pre ++ ds) !! i = Some s) (seq (length pre) (length ds)) ds.
Proof.
  induction ds as [|x ds IH]; intros pre; cbn [length seq]; constructor.
  - rewrite lookup_app_r by lia. rewrite Nat.sub_diag. reflexivity.
  - specialize (IH (pre ++ [x])). rewrite <- app_assoc, length_app in IH.
    cbn [length app] in IH. rewrite Nat.add_1_r in IH. exact IH.
Qed.

Lemma evaluate_inv (env : Val.ParallelEnv) (ds : list (Val.tensor * Val.tensor))
      (nc nw : nat) (pd auc : bool) (writer : option unit) (sd : option string)
      (w w' : Val.world) (d : gmap string Val.pynum) :
  Val.evaluate env ds nc nw pd auc writer sd w = Ok (d, w') ->
  exists (idxs : list nat) (ss : list (Val.tensor * Val.tensor)),
    Val.sampler_iter env (length ds) 1 false = Ok (map (fun i => [i]) idxs) /\
    length idxs = Val.sampler_len env (length ds) 1 false /\
    idxs <> [] /\
    Forall2 (fun i s => ds !! i = Some s) idxs ss /\
    inferences (Val.trace w') = inferences (Val.trace w) ++ map im_of ss /\
    getitems (Val.trace w') = getitems (Val.trace w) ++ idxs /\
    saves (Val.trace w')
    = saves (Val.trace w)
      ++ match sd with Some dir => run_saves dir 0 ss | None => [] end /\
    Val.files w' = run_files sd 0 ss (Val.files w) /\
    ((auc = false /\
      d = {[ "mdice" := Val.NpFloat64 (Spec.arithmetic_mean (map mean_dice ss)) ]}) \/
     (auc = true /\ exists a,
      d = <[ "auc_roc" := a ]>
            {[ "mdice" := Val.NpFloat64 (Spec.arithmetic_mean (map mean_dice ss)) ]})).
Proof.
  unfold Val.evaluate. intros H.
  apply bind_Ok_inv in H as (u0 & w0 & H0 & H).
  apply bind_Ok_inv in H as (bs & w1 & Hb & H).
  apply lift_Ok_inv in Hb as [Hb ->].
  apply bind_Ok_inv in H as (st & w2 & Hl & H).
  apply bind_Ok_inv in H as (m & w3 & Hm & H).
  apply lift_Ok_inv in Hm as [Hm ->].
  apply bind_Ok_inv in H as (la & w4 & Hla & H).
  apply lift_Ok_inv in Hla as [Hla ->].
  apply bind_Ok_inv in H as (a & w5 & Ha & H).
  apply bind_Ok_inv in H as (u1 & w6 & H1 & H).
  unfold ret in H. injection H as <- <-.
  destruct (sampler_iter_inv env (length ds) bs Hb) as (idxs & -> & Li).
  apply loop_inv in Hl as (ss & Hss & T & Fi & M & N).
  exists idxs, ss. split; [exact Hb|]. split; [exact Li|].
  assert (Ls : length idxs = length ss) by (eapply Forall2_length; exact Hss).
  destruct N as [[-> ->]|[Ne ((x & Hx) & (y & Hy) & Hauc)]].
  { rewrite <- Li in Hm. cbn in Hm. discriminate Hm. }
  split; [exact Ne|]. split; [exact Hss|].
  assert (W0 : Val.files w0 = Val.files w /\
               exists pre, Val.trace w0 = Val.trace w ++ pre /\
                           inferences pre = [] /\ getitems pre = [] /\ saves pre = []).
  { destruct pd; cbn in H0; injection H0 as _ <-; cbn [Val.files Val.trace].
    - split; [reflexivity|]. eexists. split; [reflexivity|]. auto.
    - split; [reflexivity|]. exists []. rewrite app_nil_r. auto. }
  assert (W5 : w5 = w2).
  { destruct auc; [|cbn in Ha; injection Ha as _ <-; reflexivity].
    apply bind_Ok_inv in Ha as (a0 & w7 & Ha0 & Ha).
    apply lift_Ok_inv in Ha0 as [_ ->]. cbn in Ha. injection Ha as _ <-.
    reflexivity. }
  subst w5.
  assert (W6 : Val.files w6 = Val.files w2 /\
               exists post, Val.trace w6 = Val.trace w2 ++ post /\
                            inferences post = [] /\ getitems post = [] /\ saves post = []).
  { destruct pd.
    - apply bind_Ok_inv in H1 as (l0 & w7 & Hl0 & H1).
      apply lift_Ok_inv in Hl0 as [_ ->].
      unfold bind, Val.emit in H1. injection H1 as _ <-.
      cbn [Val.files Val.trace]. split; [reflexivity|].
      eexists [_; _]. rewrite <- app_assoc. split; [reflexivity|]. auto.
    - cbn in H1. injection H1 as _ <-. split; [reflexivity|].
      exists []. rewrite app_nil_r. auto. }
  destruct W0 as (F0 & pre & T0 & Ip & Gp & Sp).
  destruct W6 as (F6 & post & T6 & Iq & Gq & Sq).
  rewrite T6, T, T0.
  rewrite !inferences_app, !getitems_app, !saves_app.
  rewrite Ip, Gp, Sp, Iq, Gq, Sq, !app_nil_r. cbn [app].
  rewrite (inferences_run_trace env pd sd idxs ss Ls).
  rewrite (getitems_run_trace env pd sd idxs ss Ls).
  rewrite (saves_run_trace env pd sd idxs ss Ls).
  do 3 (split; [reflexivity|]).
  split; [rewrite F6, Fi, F0; reflexivity|].
  assert (Em : m = Val.NpFloat64 (Spec.arithmetic_mean (map mean_dice ss))).
  { rewrite Hx in Hm. cbn in Hm. injection Hm as <-.
    unfold Spec.arithmetic_mean. rewrite length_map, <- Ls, Li.
    rewrite Hx in M. cbn in M. rewrite M. reflexivity. }
  rewrite <- Em. destruct auc.
  - right. split; [reflexivity|].
    apply bind_Ok_inv in Ha as (a0 & w7 & Ha0 & Ha). cbn in Ha.
    injection Ha as <-. exists a0. reflexivity.
  - left. split; [reflexivity|]. cbn in Ha. injection Ha as <-. reflexivity.
Qed.

Lemma evaluate_ok (env : Val.ParallelEnv) (ds : list (Val.tensor * Val.tensor))
      (nc nw : nat) (pd auc : bool) (writer : option unit) (sd : option string)
      (w : Val.world) (k : nat) :
  Val.nranks env = 1%nat -> ds <> [] ->
  Forall (fun s => loss_of s <> [] /\ length (dice_of s) = k) ds ->
  is_ok (Val.evaluate env ds nc nw pd auc writer sd w) = true.
Proof.
  intros E Ne Hf. unfold Val.evaluate.
  rewrite (sampler_iter_single env (length ds) E).
  set (w0 := if pd then _ else _).
  unfold bind at 1.
  assert (W0 : exists w1, w0 w = Ok (tt, w1)).
  { unfold w0. destruct pd; eexists; reflexivity. }
  destruct W0 as (w1 & ->). unfold bind at 1. cbn [lift]. unfold bind at 1.
  pose proof (Forall2_lookup_seq ds []) as Hss. cbn [app length] in Hss.
  pose proof (loop_ok env ds pd auc writer sd k _ _ Hss Hf 0%nat Val.locals_init w1
                (or_introl eq_refl)) as Ok1.
  destruct (Val.loop _ _ _ _ _) as [[st w2]|e] eqn:L; [|discriminate Ok1].
  apply loop_inv in L as (ss & _ & _ & _ & _ & N).
  destruct N as [[Z _]|[_ ((x & Hx) & (y & Hy) & Hauc)]].
  { destruct ds; [congruence|discriminate Z]. }
  unfold bind at 1. rewrite Hx. cbn [Val.itruediv_int lift].
  unfold bind at 1. rewrite Hy. cbn [Val.itruediv_int lift].
  destruct auc.
  - destruct (Hauc eq_refl) as [[la Hla] [lb Hlb]].
    unfold bind, Val.auc_value, lift, ret, Val.emit. rewrite Hla, Hlb.
    destruct pd; reflexivity.
  - unfold bind, lift, ret, Val.emit. destruct pd; reflexivity.
Qed.

(** C1, as the code has it. In a single process ([nranks = 1]), on a
    non-empty dataset of size N whose samples all get a non-empty list of
    losses and Dice vectors of one length, [evaluate] returns; it has called
    [infer.inference] exactly N times, once on each sample, and fetched the
    indices 0, ..., N-1 in this order; and ['mdice'] in the result is the
    arithmetic mean of the N values [np.mean(per_channel_dice)]. *)
Theorem evaluate_single_process (env : Val.ParallelEnv)
        (ds : list (Val.tensor * Val.tensor)) (nc nw : nat) (pd auc : bool)
        (writer : option unit) (sd : option string) (w : Val.world) (k : nat) :
  Val.nranks env = 1%nat -> ds <> [] ->
  Forall (fun s => loss_of s <> [] /\ length (dice_of s) = k) ds ->
  exists (d : gmap string Val.pynum) (w' : Val.world),
    Val.evaluate env ds nc nw pd auc writer sd w = Ok (d, w') /\
    inferences (Val.trace w') = inferences (Val.trace w) ++ map im_of ds /\
    length (inferences (Val.trace w'))
    = (length (inferences (Val.trace w)) + length ds)%nat /\
    getitems (Val.trace w') = getitems (Val.trace w) ++ seq 0 (length ds) /\
    d !! "mdice"
    = Some (Val.NpFloat64 (Spec.arithmetic_mean (map mean_dice ds))).
Proof.
  intros E Ne Hf.
  pose proof (evaluate_ok env ds nc nw pd auc writer sd w k E Ne Hf) as O.
  destruct (Val.evaluate env ds nc nw pd auc writer sd w) as [[d w']|e] eqn:R;
    [|discriminate O].
  exists d, w'. split; [reflexivity|].
  apply evaluate_inv in R
    as (idxs & ss & Hb & _ & _ & Hss & I & G & _ & _ & D).
  rewrite (sampler_iter_single env (length ds) E) in Hb. injection Hb as Hb.
  assert (Ei : idxs = seq 0 (length ds)).
  { clear -Hb. revert idxs Hb. generalize (seq 0 (length ds)).
    induction l as [|i l IH]; intros [|j idxs] H; try discriminate; [reflexivity|].
    cbn in H. injection H as -> H. f_equal. apply IH. exact H. }
  subst idxs.
  assert (Es : ss = ds).
  { apply (Forall2_lookup_functional ds (seq 0 (length ds))); [exact Hss|].
    exact (Forall2_lookup_seq ds []). }
  subst ss. split; [exact I|]. split; [rewrite I, length_app, length_map; reflexivity|].
  split; [exact G|].
  destruct D as [[_ ->]|[_ [a ->]]].
  - apply lookup_singleton_eq.
  - rewrite lookup_insert_ne by discriminate. apply lookup_singleton_eq.
Qed.

(** C6. In a run with [save_dir] given that returns, the [np.save] calls
    are, iteration after iteration from 0, the three of [run_saves]:
    [{save_dir}/{i}_pred.npy] with the prediction, [{save_dir}/{i}_label.npy]
    with the int64 label and [{save_dir}/{i}_img.npy] with the image of the
    sample of iteration [i]; and when the run is over, loading each of the
    three files of an iteration gives back that very array. *)
Theorem evaluate_saves_three_files (env : Val.ParallelEnv)
        (ds : list (Val.tensor * Val.tensor)) (nc nw : nat) (pd auc : bool)
        (writer : option unit) (dir : string) (w w' : Val.world)
        (d : gmap string Val.pynum) :
  Val.evaluate env ds nc nw pd auc writer (Some dir) w = Ok (d, w') ->
  exists (idxs : list nat) (ss : list (Val.tensor * Val.tensor)),
    Val.sampler_iter env (length ds) 1 false = Ok (map (fun i => [i]) idxs) /\
    Forall2 (fun i s => ds !! i = Some s) idxs ss /\
    saves (Val.trace w') = saves (Val.trace w) ++ run_saves dir 0 ss /\
    forall (i : nat) (s : Val.tensor * Val.tensor),
      ss !! i = Some s ->
      Val.np_load w' (pred_path dir i) = Some (Val.numpy (pred_of s)) /\
      Val.np_load w' (label_path dir i) = Some (Val.numpy (label_of s)) /\
      Val.np_load w' (img_path dir i) = Some (Val.numpy (im_of s)).
Proof.
  intros R.
  apply evaluate_inv in R
    as (idxs & ss & Hb & _ & _ & Hss & _ & _ & S & Fi & _).
  exists idxs, ss. split; [exact Hb|]. split; [exact Hss|]. split; [exact S|].
  intros i s Hs. unfold Val.np_load. rewrite Fi.
  exact (run_files_lookup dir ss 0 (Val.files w) i s Hs).
Qed.

(** C7. When [evaluate] returns, the dict it returns has the key ['mdice'],
    has the key ['auc_roc'] exactly when the argument [auc_roc] was true, and
    has no other key; the values are floats. *)
Theorem evaluate_result_fields (env : Val.ParallelEnv)
        (ds : list (Val.tensor * Val.tensor)) (nc nw : nat) (pd auc : bool)
        (writer : option unit) (sd : option string) (w w' : Val.world)
        (d : gmap string Val.pynum) :
  Val.evaluate env ds nc nw pd auc writer sd w = Ok (d, w') ->
  is_Some (d !! "mdice") /\
  (is_Some (d !! "auc_roc") <-> auc = true) /\
  (forall key : string, is_Some (d !! key) -> key = "mdice" \/ key = "auc_roc").
Proof.
  intros R.
  apply evaluate_inv in R as (idxs & ss & _ & _ & _ & _ & _ & _ & _ & _ & D).
  destruct D as [[-> ->]|[-> [a ->]]].
  - split; [rewrite lookup_singleton_eq; eauto|]. split.
    + rewrite lookup_singleton_ne by discriminate. split; [|discriminate].
      intros [x Hx]. discriminate Hx.
    + intros key [x Hx]. apply lookup_singleton_Some in Hx as [<- _]. auto.
  - split; [rewrite lookup_insert_ne by discriminate; rewrite lookup_singleton_eq; eauto|].
    split.
    + rewrite lookup_insert_eq. split; eauto.
    + intros key [x Hx]. apply lookup_insert_Some in Hx as [[<- _]|[_ Hx]]; [auto|].
      apply lookup_singleton_Some in Hx as [<- _]. auto.
Qed.
End EvaluateFacts.

(** * Runs on the small framework *)

(** A run that returned, in terms of what it left. *)
Lemma is_ok_final {A : Type} (r : result (A * Val.world)) (a0 : A) :
  is_ok r = true -> r = Ok (default a0 (final_value r), final_world r).
Proof. destruct r as [[a w]|e]; [reflexivity|discriminate]. Qed.

Lemma evaluate_single_process_witness :
  exists (d : gmap string Val.pynum) (w' : Val.world),
    Val.evaluate (F:=toy) (toy_env 1 0) (toy_dataset 2) 2 0 true false None None world0
    = Ok (d, w') /\
    inferences (Val.trace w')
    = inferences (Val.trace world0) ++ map im_of (toy_dataset 2) /\
    length (inferences (Val.trace w'))
    = (length (inferences (Val.trace world0)) + length (toy_dataset 2))%nat /\
    getitems (Val.trace w')
    = getitems (Val.trace world0) ++ seq 0 (length (toy_dataset 2)) /\
    d !! "mdice"
    = Some (Val.NpFloat64 (Spec.arithmetic_mean (map mean_dice (toy_dataset 2)))).
Proof.
  apply (evaluate_single_process (F:=toy) (toy_env 1 0) (toy_dataset 2) 2 0 true false
           None None world0 2).
  - reflexivity.
  - discriminate.
  - repeat constructor; discriminate.
Defined.

(** C1, as the claim words it, fails under data parallelism: on rank 0 of 2,
    a dataset of 3 samples gets 2 inference calls, on the samples 0 and 2;
    sample 1 is never visited. *)
Lemma evaluate_two_ranks_visits_a_shard :
  is_ok (Val.evaluate (F:=toy) (toy_env 2 0) (toy_dataset 3) 2 0 false false None None world0)
  = true /\
  getitems (final_trace
              (Val.evaluate (F:=toy) (toy_env 2 0) (toy_dataset 3) 2 0 false false
                            None None world0))
  = [0; 2]%nat /\
  length (inferences
            (final_trace
               (Val.evaluate (F:=toy) (toy_env 2 0) (toy_dataset 3) 2 0 false false
                             None None world0)))
  = 2%nat /\
  length (inferences
            (final_trace
               (Val.evaluate (F:=toy) (toy_env 2 0) (toy_dataset 3) 2 0 false false
                             None None world0)))
  <> length (toy_dataset 3).
Proof.
  split; [vm_compute; reflexivity|]. split; [vm_compute; reflexivity|].
  split; [vm_compute; reflexivity|]. vm_compute. discriminate.
Qed.

Lemma evaluate_saves_three_files_witness :
  exists (idxs : list nat) (ss : list (nat * nat)),
    Val.sampler_iter (toy_env 1 0) (length (toy_dataset 2)) 1 false
    = Ok (map (fun i => [i]) idxs) /\
    Forall2 (fun i s => toy_dataset 2 !! i = Some s) idxs ss /\
    saves (Val.trace
             (final_world
                (Val.evaluate (F:=toy) (toy_env 1 0) (toy_dataset 2) 2 0 false false None
                              (Some "out") world0)))
    = saves (Val.trace world0) ++ run_saves "out" 0 ss /\
    forall (i : nat) (s : nat * nat),
      ss !! i = Some s ->
      Val.np_load
        (final_world
           (Val.evaluate (F:=toy) (toy_env 1 0) (toy_dataset 2) 2 0 false false None
                         (Some "out") world0))
        (pred_path "out" i) = Some (Val.numpy (pred_of s)) /\
      Val.np_load
        (final_world
           (Val.evaluate (F:=toy) (toy_env 1 0) (toy_dataset 2) 2 0 false false None
                         (Some "out") world0))
        (label_path "out" i) = Some (Val.numpy (label_of s)) /\
      Val.np_load
        (final_world
           (Val.evaluate (F:=toy) (toy_env 1 0) (toy_dataset 2) 2 0 false false None
                         (Some "out") world0))
        (img_path "out" i) = Some (Val.numpy (im_of s)).
Proof.
  apply (evaluate_saves_three_files (F:=toy) (toy_env 1 0) (toy_dataset 2) 2 0 false false
           None "out" world0 _
           (default ∅ (final_value
                         (Val.evaluate (F:=toy) (toy_env 1 0) (toy_dataset 2) 2 0 false false
                                       None (Some "out") world0)))).
  apply is_ok_final. vm_compute. reflexivity.
Defined.

Lemma evaluate_result_fields_witness :
  is_Some (default ∅ (final_value
                        (Val.evaluate (F:=toy) (toy_env 1 0) (toy_dataset 2) 2 0 false true
                                      None None world0)) !! "mdice") /\
  (is_Some (default ∅ (final_value
                         (Val.evaluate (F:=toy) (toy_env 1 0) (toy_dataset 2) 2 0 false true
                                       None None world0)) !! "auc_roc")
   <-> true = true) /\
  (forall key : string,
     is_Some (default ∅ (final_value
                           (Val.evaluate (F:=toy) (toy_env 1 0) (toy_dataset 2) 2 0 false true
                                         None None world0)) !! key) ->
     key = "mdice" \/ key = "auc_roc").
Proof.
  apply (evaluate_result_fields (F:=toy) (toy_env 1 0) (toy_dataset 2) 2 0 false true
           None None world0
           (final_world (Val.evaluate (F:=toy) (toy_env 1 0) (toy_dataset 2) 2 0 false true
                                      None None world0))).
  apply is_ok_final. vm_compute. reflexivity.
Defined.

(** * More on [values.py] *)

(** A run of [label_remap] on an ndarray whose dtype holds every value of
    the map. *)
Lemma label_remap_in_range_run (nv : Npy.numpy_version) (t : Npy.int_dtype)
      (h : heap Z) (label : ref) (d : list Z) (kvs : list (Z * Z)) :
  h !! label = Some (NdArray d) ->
  Forall (fun kv => Npy.in_range t (snd kv) = true) kvs ->
  Values.label_remap nv t label (Some kvs) h
  = Ok (label, <[label := NdArray (Spec.remap_sequential kvs d)]> h).
Proof.
  intros H Hr. rewrite (label_remap_ndarray_run nv t h label d kvs H).
  rewrite (cast_values_in_range nv t kvs Hr). reflexivity.
Qed.

(** With the default [map_dict=None] the call raises [AttributeError],
    whatever the label is: [None] has no [items]. *)
Theorem label_remap_default_map (nv : Npy.numpy_version) (t : Npy.int_dtype)
        (h : heap Z) (label : ref) (o : pyobj Z) :
  h !! label = Some o ->
  Values.label_remap nv t label None h = Raise AttributeError.
Proof.
  intros H. unfold Values.label_remap, bind at 1, deref.
  unfold heap, ref in *. rewrite H. destruct o; reflexivity.
Qed.

Lemma label_remap_default_map_witness :
  Values.label_remap Npy.Numpy2 Npy.uint8 0%nat None [NdArray [1; 2]]
  = Raise AttributeError.
Proof.
  exact (label_remap_default_map Npy.Numpy2 Npy.uint8 [NdArray [1; 2]] 0%nat
           (NdArray [1; 2]) eq_refl).
Defined.

Lemma replace_swap (a b : Z) (d : list Z) :
  Spec.remap_sequential [(a, b); (b, a)] d
  = map (fun x => if Z.eqb x a || Z.eqb x b then a else x) d.
Proof.
  unfold Spec.remap_sequential, Spec.replace_all. cbn [fold_left fst snd].
  rewrite map_map. apply map_ext. intros x.
  destruct (Z.eqb_spec x a) as [->|Na]; cbn [orb].
  - rewrite Z.eqb_refl. reflexivity.
  - destruct (Z.eqb_spec x b); reflexivity.
Qed.

(** A map that swaps two labels the array's dtype holds, [{a: b, b: a}],
    does not swap them: every voxel that was [a] or [b] ends as [a]. *)
Theorem label_remap_swap_collapses (nv : Npy.numpy_version) (t : Npy.int_dtype)
        (h : heap Z) (label : ref) (d : list Z) (a b : Z) :
  h !! label = Some (NdArray d) ->
  Npy.in_range t a = true ->
  Npy.in_range t b = true ->
  Values.label_remap nv t label (Some [(a, b); (b, a)]) h
  = Ok (label,
        <[label := NdArray (map (fun x => if Z.eqb x a || Z.eqb x b then a else x) d)]> h).
Proof.
  intros H Ha Hb.
  rewrite (label_remap_in_range_run nv t h label d _ H), replace_swap;
    [reflexivity|].
  repeat constructor; assumption.
Qed.

Lemma label_remap_swap_collapses_witness :
  Values.label_remap Npy.Numpy2 Npy.uint8 0%nat (Some [(3, 8); (8, 3)])
                     [NdArray [3; 8; 5]]
  = Ok (0%nat,
        <[0%nat := NdArray (map (fun x => if Z.eqb x 3 || Z.eqb x 8 then 3 else x)
                                [3; 8; 5])]> [NdArray [3; 8; 5]]).
Proof.
  exact (label_remap_swap_collapses Npy.Numpy2 Npy.uint8 [NdArray [3; 8; 5]] 0%nat
           [3; 8; 5] 3 8 eq_refl eq_refl eq_refl).
Defined.

Lemma first_match_not_key (kvs : list (Z * Z)) (v : Z) :
  forallb (fun kv' => negb (Z.eqb v (fst kv'))) kvs = true ->
  Spec.first_match kvs v = v.
Proof.
  induction kvs as [|kv kvs IH]; [reflexivity|]. cbn [forallb Spec.first_match].
  intros H. apply andb_prop in H as [H1 H2]. apply negb_true_iff in H1.
  rewrite H1. apply IH. exact H2.
Qed.

Lemma remap_sequential_no_chain (kvs : list (Z * Z)) :
  Spec.no_chain kvs = true ->
  forall d, Spec.remap_sequential kvs d = map (Spec.first_match kvs) d.
Proof.
  unfold Spec.remap_sequential.
  induction kvs as [|kv kvs IH]; intros N d.
  - cbn. rewrite map_id. reflexivity.
  - cbn [Spec.no_chain] in N. apply andb_prop in N as [N1 N2].
    cbn [fold_left]. rewrite (IH N2). unfold Spec.replace_all. rewrite map_map.
    apply map_ext. intros x. cbn [Spec.first_match].
    destruct (Z.eqb x (fst kv)); [|reflexivity].
    apply first_match_not_key. exact N1.
Qed.

(** When the array's dtype holds every value of the map and no value is the
    key of a later pair, the passes do not interfere: every voxel gets the
    value of its own label, as if the map had been applied at once. *)
Theorem label_remap_without_chain (nv : Npy.numpy_version) (t : Npy.int_dtype)
        (h : heap Z) (label : ref) (d : list Z) (kvs : list (Z * Z)) :
  h !! label = Some (NdArray d) ->
  Forall (fun kv => Npy.in_range t (snd kv) = true) kvs ->
  Spec.no_chain kvs = true ->
  Values.label_remap nv t label (Some kvs) h
  = Ok (label, <[label := NdArray (map (Spec.first_match kvs) d)]> h).
Proof.
  intros H Hr N. rewrite (label_remap_in_range_run nv t h label d kvs H Hr).
  rewrite (remap_sequential_no_chain kvs N). reflexivity.
Qed.

Lemma label_remap_without_chain_witness :
  Values.label_remap Npy.Numpy2 Npy.uint8 0%nat (Some [(2, 1); (3, 2)])
                     [NdArray [1; 2; 3; 4]]
  = Ok (0%nat,
        <[0%nat := NdArray (map (Spec.first_match [(2, 1); (3, 2)]) [1; 2; 3; 4])]>
          [NdArray [1; 2; 3; 4]]).
Proof.
  apply (label_remap_without_chain Npy.Numpy2 Npy.uint8 [NdArray [1; 2; 3; 4]]
           0%nat [1; 2; 3; 4] [(2, 1); (3, 2)] eq_refl).
  - repeat constructor.
  - reflexivity.
Defined.

Lemma replace_all_length (k v : Z) (d : list Z) :
  length (Spec.replace_all k v d) = length d.
Proof. unfold Spec.replace_all. apply length_map. Qed.

Lemma replace_all_In (k v : Z) (d : list Z) (y : Z) :
  In y (Spec.replace_all k v d) -> In y d \/ y = v.
Proof.
  unfold Spec.replace_all. intros Hy. apply in_map_iff in Hy as (x & E & Hx).
  destruct (Z.eqb x k); subst; auto.
Qed.

Lemma remap_sequential_shape (kvs : list (Z * Z)) :
  forall d,
    length (Spec.remap_sequential kvs d) = length d /\
    forall y, In y (Spec.remap_sequential kvs d) -> In y d \/ In y (map snd kvs).
Proof.
  unfold Spec.remap_sequential.
  induction kvs as [|kv kvs IH]; intros d; cbn [fold_left map].
  - split; auto.
  - destruct (IH (Spec.replace_all (fst kv) (snd kv) d)) as [L I]. split.
    + rewrite L. apply replace_all_length.
    + intros y Hy. destruct (I y Hy) as [Hd|Hv].
      * apply replace_all_In in Hd as [Hd| ->]; [auto|]. right. left. reflexivity.
      * right. right. exact Hv.
Qed.

(** When the array's dtype holds every value of the map, [label_remap]
    keeps the number of voxels, and every label of the result was in the
    array before or is a value of the map. *)
Theorem label_remap_shape_and_labels (nv : Npy.numpy_version) (t : Npy.int_dtype)
        (h : heap Z) (label : ref) (d : list Z) (kvs : list (Z * Z)) :
  h !! label = Some (NdArray d) ->
  Forall (fun kv => Npy.in_range t (snd kv) = true) kvs ->
  exists d',
    returned (Values.label_remap nv t label (Some kvs) h) = Some (NdArray d') /\
    length d' = length d /\
    forall y, In y d' -> In y d \/ In y (map snd kvs).
Proof.
  intros H Hr. exists (Spec.remap_sequential kvs d).
  rewrite (label_remap_in_range_run nv t h label d kvs H Hr). cbn [returned]. split.
  - unfold heap, ref in *. apply list_lookup_insert_eq.
    apply lookup_lt_is_Some. eauto.
  - apply remap_sequential_shape.
Qed.

Lemma label_remap_shape_and_labels_witness :
  exists d',
    returned (Values.label_remap Npy.Numpy2 Npy.uint8 0%nat
                (Some [(1, 2); (2, 1)]) [NdArray [1; 2; 7]])
    = Some (NdArray d') /\
    length d' = length [1; 2; 7] /\
    forall y, In y d' -> In y [1; 2; 7] \/ In y (map snd [(1, 2); (2, 1)]).
Proof.
  apply (label_remap_shape_and_labels Npy.Numpy2 Npy.uint8 [NdArray [1; 2; 7]]
           0%nat [1; 2; 7] [(1, 2); (2, 1)] eq_refl).
  repeat constructor.
Defined.







(** Clamping twice is clamping once. *)
Lemma clamp_idempotent (x : float) :
  Spec.clamp (Spec.clamp x 0 1) 0 1 = Spec.clamp x 0 1.
Proof.
  destruct (is_nan x) eqn:N.
  - rewrite (clamp_nan x N). apply clamp_nan. exact N.
  - assert (C : Spec.clamp x 0 1 = 0%float \/ Spec.clamp x 0 1 = 1%float \/
                (Spec.clamp x 0 1 = x /\ (x <=? 0)%float = false /\
                 (1 <=? x)%float = false)).
    { unfold Spec.clamp. rewrite N.
      destruct (x <=? 0)%float; [auto|]. destruct (1 <=? x)%float; auto. }
    destruct C as [->|[->|(-> & L0 & L1)]]; [reflexivity..|].
    unfold Spec.clamp. rewrite N, L0, L1. reflexivity.
Qed.

Lemma normalize1_0_1 (x : float) : Spec.normalize1 0 1 x = Spec.clamp x 0 1.
Proof. unfold Spec.normalize1. rewrite rescale_0_1. reflexivity. Qed.

(** [Normalize(Normalize(image, 0, 1), 0, 1)] holds the same values as
    [Normalize(image, 0, 1)]: the second call, made on the array the first
    returned, returns an equal array (a new one; the first is unchanged). *)
Theorem Normalize_0_1_idempotent (h : heap float) (image : ref) (o : pyobj float) :
  h !! image = Some o ->
  exists (r1 : ref) (h1 : heap float) (out : list float),
    Values.Normalize image 0 1 h = Ok (r1, h1) /\
    h1 !! r1 = Some (NdArray out) /\
    returned (Values.Normalize r1 0 1 h1) = Some (NdArray out) /\
    exists (r2 : ref) (h2 : heap float),
      Values.Normalize r1 0 1 h1 = Ok (r2, h2) /\ r2 <> r1 /\
      h2 !! r1 = Some (NdArray out).
Proof.
  intros H. eexists _, _, (map (Spec.normalize1 0 1) (data_of o)).
  split; [apply (Normalize_run h image o 0 1 H)|]. cbn zeta.
  set (h1 := if isinstance_ndarray o then h else h ++ [np_array o]).
  set (out := map (Spec.normalize1 0 1) (data_of o)).
  assert (H1 : (h1 ++ [NdArray out]) !! length h1 = Some (NdArray out))
    by apply lookup_snoc.
  split; [exact H1|]. split.
  - rewrite (Normalize_returned _ _ _ 0 1 H1). cbn [data_of]. unfold out.
    rewrite map_map. do 2 f_equal. apply map_ext. intros x.
    rewrite !normalize1_0_1. apply clamp_idempotent.
  - eexists _, _. split; [apply (Normalize_run _ _ _ 0 1 H1)|].
    cbn [isinstance_ndarray]. split.
    + rewrite length_app. cbn [length]. lia.
    + apply lookup_snoc_old. exact H1.
Qed.

Lemma Normalize_0_1_idempotent_witness :
  exists (r1 : ref) (h1 : heap float) (out : list float),
    Values.Normalize 0%nat 0 1 [NdArray [0.5%float; 3%float; nan]] = Ok (r1, h1) /\
    h1 !! r1 = Some (NdArray out) /\
    returned (Values.Normalize r1 0 1 h1) = Some (NdArray out) /\
    exists (r2 : ref) (h2 : heap float),
      Values.Normalize r1 0 1 h1 = Ok (r2, h2) /\ r2 <> r1 /\
      h2 !! r1 = Some (NdArray out).
Proof.
  exact (Normalize_0_1_idempotent [NdArray [0.5%float; 3%float; nan]] 0%nat
           (NdArray [0.5%float; 3%float; nan]) eq_refl).
Defined.

(** On a plain list, [HUNorm] leaves the caller's list and everything else
    on the heap as it was: it is the converted copy that [nan_to_num]
    overwrites. The values returned are those for an ndarray of the same
    elements. *)
Theorem HUNorm_list_untouched (h : heap float) (image : ref) (l : list float)
        (HU_min HU_max HU_nan : float) :
  h !! image = Some (PyList l) ->
  exists (r : ref) (h' : heap float),
    Values.HUNorm image HU_min HU_max HU_nan h = Ok (r, h') /\
    (forall (p : ref) (o : pyobj float), h !! p = Some o -> h' !! p = Some o) /\
    h !! r = None /\
    h' !! r = Some (NdArray (map (Spec.normalize1 HU_min HU_max)
                                 (Npy.nan_to_num l HU_nan))) /\
    forall (h2 : heap float) (image2 : ref),
      h2 !! image2 = Some (NdArray l) ->
      returned (Values.HUNorm image2 HU_min HU_max HU_nan h2) = h' !! r.
Proof.
  intros H. eexists _, _.
  split; [apply (HUNorm_run_list h image l HU_min HU_max HU_nan H)|].
  assert (R : ((h ++ [NdArray (Npy.nan_to_num l HU_nan)])
               ++ [NdArray (map (Spec.normalize1 HU_min HU_max)
                                (Npy.nan_to_num l HU_nan))]) !! S (length h)
              = Some (NdArray (map (Spec.normalize1 HU_min HU_max)
                                   (Npy.nan_to_num l HU_nan)))).
  { replace (S (length h)) with (length (h ++ [NdArray (Npy.nan_to_num l HU_nan)]))
      by (rewrite length_app, Nat.add_1_r; reflexivity).
    apply lookup_snoc. }
  split; [|split; [|split]].
  - intros p o Ho. apply lookup_snoc_old, lookup_snoc_old. exact Ho.
  - apply lookup_ge_None_2. lia.
  - exact R.
  - intros h2 image2 H2.
    etransitivity; [|symmetry; exact R].
    apply (HUNorm_returned h2 image2 (NdArray l) HU_min HU_max HU_nan H2).
Qed.

Lemma HUNorm_list_untouched_witness :
  exists (r : ref) (h' : heap float),
    Values.HUNorm 0%nat 0 1 0.5 [PyList [nan; 3%float]] = Ok (r, h') /\
    (forall (p : ref) (o : pyobj float),
       [PyList [nan; 3%float]] !! p = Some o -> h' !! p = Some o).
Proof.
  destruct (HUNorm_list_untouched [PyList [nan; 3%float]] 0%nat [nan; 3%float]
              0%float 1%float 0.5%float eq_refl) as (r & h' & E & U & _).
  exists r, h'. split; [exact E|exact U].
Defined.

Lemma nan_to_num1_is_finite (v x : float) :
  is_finite v = true -> is_finite (Npy.nan_to_num1 v x) = true.
Proof.
  intros Fv. unfold Npy.nan_to_num1.
  destruct (is_nan x) eqn:N; [exact Fv|].
  destruct (x =? infinity)%float eqn:P; [reflexivity|].
  destruct (x =? neg_infinity)%float eqn:M; [reflexivity|].
  unfold is_finite. rewrite N. cbn [orb]. rewrite is_infinity_spec.
  rewrite FloatAxioms.eqb_spec, ?Prim2SF_infinity, ?Prim2SF_neg_infinity in P, M.
  destruct (Prim2SF x) as [[]|[]| |[] m e]; try reflexivity; discriminate.
Qed.

Lemma nan_to_num1_fixed (v x : float) :
  is_finite x = true -> Npy.nan_to_num1 v x = x.
Proof.
  unfold is_finite. intros Fx. apply negb_true_iff, orb_false_iff in Fx as [N I].
  rewrite (nan_to_num1_finite v x I). unfold Spec.replace_nan. rewrite N.
  reflexivity.
Qed.

Lemma nan_to_num_is_finite (d : list float) (v : float) :
  is_finite v = true -> Forall (fun x => is_finite x = true) (Npy.nan_to_num d v).
Proof.
  intros Fv. unfold Npy.nan_to_num.
  induction d as [|x d IH]; cbn [map]; constructor; [|exact IH].
  apply nan_to_num1_is_finite. exact Fv.
Qed.

Lemma nan_to_num_fixed (d : list float) (v : float) :
  Forall (fun x => is_finite x = true) d -> Npy.nan_to_num d v = d.
Proof.
  unfold Npy.nan_to_num. induction 1 as [|x d Fx _ IH]; cbn [map]; [reflexivity|].
  rewrite IH, (nan_to_num1_fixed v x Fx). reflexivity.
Qed.

(** With a finite [HU_nan], the array [HUNorm] leaves to its caller holds
    finite values only, and a second call on it changes it no more and
    returns the values the first returned. *)
Theorem HUNorm_second_call (h : heap float) (image : ref) (d : list float)
        (HU_min HU_max HU_nan : float) :
  h !! image = Some (NdArray d) ->
  is_finite HU_nan = true ->
  exists (r1 : ref) (h1 : heap float) (d1 : list float),
    Values.HUNorm image HU_min HU_max HU_nan h = Ok (r1, h1) /\
    h1 !! image = Some (NdArray d1) /\
    Forall (fun x => is_finite x = true) d1 /\
    exists (r2 : ref) (h2 : heap float),
      Values.HUNorm image HU_min HU_max HU_nan h1 = Ok (r2, h2) /\
      h2 !! image = Some (NdArray d1) /\
      h2 !! r2 = h1 !! r1.
Proof.
  intros H Fv.
  assert (Hi : (image < length h)%nat) by (apply lookup_lt_is_Some; eauto).
  set (d1 := Npy.nan_to_num d HU_nan).
  set (out := NdArray (map (Spec.normalize1 HU_min HU_max) d1)).
  set (h1 := <[image := NdArray d1]> h ++ [out]).
  assert (L : length (<[image := NdArray d1]> h) = length h) by apply length_insert.
  assert (H1 : h1 !! image = Some (NdArray d1)).
  { apply lookup_snoc_old. apply list_lookup_insert_eq. exact Hi. }
  assert (F1 : Forall (fun x => is_finite x = true) d1)
    by (apply nan_to_num_is_finite; exact Fv).
  exists (length h), h1, d1.
  split; [apply (HUNorm_run_ndarray h image d HU_min HU_max HU_nan H)|].
  split; [exact H1|]. split; [exact F1|].
  pose proof (HUNorm_run_ndarray h1 image d1 HU_min HU_max HU_nan H1) as E2.
  rewrite (nan_to_num_fixed d1 HU_nan F1) in E2.
  unfold heap, ref in *.
  rewrite (list_insert_id h1 image (NdArray d1) H1) in E2.
  eexists _, _. split; [exact E2|]. split.
  - apply lookup_snoc_old. exact H1.
  - etransitivity; [apply lookup_snoc|]. symmetry. unfold h1.
    rewrite <- L. apply lookup_snoc.
Qed.

Lemma HUNorm_second_call_witness :
  exists (r1 : ref) (h1 : heap float) (d1 : list float),
    Values.HUNorm 0%nat (-1000) 600 (-2000) [NdArray [nan; infinity; 100%float]]
    = Ok (r1, h1) /\
    h1 !! 0%nat = Some (NdArray d1) /\
    Forall (fun x => is_finite x = true) d1.
Proof.
  destruct (HUNorm_second_call [NdArray [nan; infinity; 100%float]] 0%nat
              [nan; infinity; 100%float] (-1000)%float 600%float (-2000)%float
              eq_refl eq_refl) as (r1 & h1 & d1 & E & I & Fi & _).
  exists r1, h1, d1. auto.
Defined.

(** * More on [evaluate] *)

Section EvaluateMore.
Context {F : Val.Framework}.

Lemma iteration_auc_inv (env : Val.ParallelEnv) (ds : list (Val.tensor * Val.tensor))
      (pd auc : bool) (writer : option unit) (sd : option string)
      (it idx : nat) (st st1 : Val.locals) (w w1 : Val.world)
      (s : Val.tensor * Val.tensor) :
  ds !! idx = Some s ->
  Val.iteration env ds pd auc writer sd it [idx] st w = Ok (st1, w1) ->
  Val.logits_all st1 = (Val.collect_auc auc (logits_of s) (label_of s) st).1 /\
  Val.label_all st1 = (Val.collect_auc auc (logits_of s) (label_of s) st).2.
Proof.
  intros H. rewrite (iteration_eq env ds pd auc writer sd it idx st w s H).
  destruct (Val.sum_loss _) as [loss|e]; [|discriminate].
  destruct (if (length (Val.channel_dice_array st) =? 0)%nat then _ else _)
    as [cda|e]; [|discriminate].
  intros E. injection E as <- _. split; reflexivity.
Qed.

(** The two collections grow by one array per iteration, in order. *)
Lemma loop_auc_inv (env : Val.ParallelEnv) (ds : list (Val.tensor * Val.tensor))
      (pd : bool) (writer : option unit) (sd : option string) (idxs : list nat) :
  forall (ss : list (Val.tensor * Val.tensor)) (it : nat) (st st' : Val.locals)
         (w w' : Val.world),
    Forall2 (fun i s => ds !! i = Some s) idxs ss ->
    (Val.logits_all st = None -> Val.label_all st = None) ->
    Val.loop (Val.iteration env ds pd true writer sd) it
             (map (fun i => [i]) idxs) st w = Ok (st', w') ->
    idxs <> [] ->
    Val.logits_all st' = Some (default [] (Val.logits_all st) ++ auc_logits ss) /\
    Val.label_all st' = Some (default [] (Val.label_all st) ++ auc_labels ss).
Proof.
  induction idxs as [|idx idxs IH]; intros ss it st st' w w' Hss Hst H Ne;
    [congruence|].
  inversion Hss as [|? s ? ss' Hs Hss' E1 E2]; subst.
  cbn [map Val.loop] in H. apply bind_Ok_inv in H as (st1 & w1 & H1 & H).
  destruct (iteration_auc_inv env ds pd true writer sd it idx st st1 w w1 s Hs H1)
    as [La Lb].
  assert (A1 : Val.logits_all st1
               = Some (default [] (Val.logits_all st) ++ auc_logits [s]) /\
               Val.label_all st1
               = Some (default [] (Val.label_all st) ++ auc_labels [s])).
  { rewrite La, Lb. unfold Val.collect_auc.
    destruct (Val.logits_all st) as [la|] eqn:E; cbn; [auto|].
    rewrite (Hst eq_refl). auto. }
  destruct A1 as [A1 B1]. destruct idxs as [|idx' idxs'].
  - inversion Hss'; subst. cbn in H. injection H as <- _. auto.
  - destruct (IH ss' (S it) st1 st' w1 w' Hss') as [A B];
      [rewrite A1; discriminate|exact H|discriminate|].
    rewrite A, B, A1, B1. cbn [default from_option]. unfold auc_logits, auc_labels, id.
    cbn [map]. rewrite <- !app_assoc. auto.
Qed.

(** Everything a returning run did and returned. *)
Lemma evaluate_full_inv (env : Val.ParallelEnv) (ds : list (Val.tensor * Val.tensor))
      (nc nw : nat) (pd auc : bool) (writer : option unit) (sd : option string)
      (w w' : Val.world) (d : gmap string Val.pynum) :
  Val.evaluate env ds nc nw pd auc writer sd w = Ok (d, w') ->
  exists (idxs : list nat) (ss : list (Val.tensor * Val.tensor))
         (loss0 : float) (cda : list float),
    Val.sampler_iter env (length ds) 1 false = Ok (map (fun i => [i]) idxs) /\
    Forall2 (fun i s => ds !! i = Some s) idxs ss /\
    idxs <> [] /\
    Val.trace w'
    = Val.trace w
      ++ (if pd then [Val.LogStart (length ds)
                                   (Val.sampler_len env (length ds) 1 false)]
          else [])
      ++ run_trace env pd sd 0 idxs ss
      ++ (if pd
          then [Val.LogSummary (length ds)
                  (Spec.arithmetic_mean (map mean_dice ss)) loss0
                  (if auc
                   then Val.truthy (Val.metric_auc_roc (auc_logits ss)
                                                       (auc_labels ss) nc)
                   else false);
                Val.LogClassDice cda]
          else []) /\
    d = (if auc
         then <[ "auc_roc" := Val.metric_auc_roc (auc_logits ss) (auc_labels ss) nc ]>
                {[ "mdice" :=
                     Val.NpFloat64 (Spec.arithmetic_mean (map mean_dice ss)) ]}
         else {[ "mdice" :=
                   Val.NpFloat64 (Spec.arithmetic_mean (map mean_dice ss)) ]}).
Proof.
  unfold Val.evaluate. intros H.
  apply bind_Ok_inv in H as (u0 & w0 & H0 & H).
  apply bind_Ok_inv in H as (bs & w1 & Hb & H).
  apply lift_Ok_inv in Hb as [Hb ->].
  apply bind_Ok_inv in H as (st & w2 & Hl & H).
  apply bind_Ok_inv in H as (m & w3 & Hm & H).
  apply lift_Ok_inv in Hm as [Hm ->].
  apply bind_Ok_inv in H as (la & w4 & Hla & H).
  apply lift_Ok_inv in Hla as [Hla ->].
  apply bind_Ok_inv in H as (a & w5 & Ha & H).
  apply bind_Ok_inv in H as (u1 & w6 & H1 & H).
  unfold ret in H. injection H as <- <-.
  destruct (sampler_iter_inv env (length ds) bs Hb) as (idxs & -> & Li).
  pose proof Hl as Hl'.
  apply loop_inv in Hl as (ss & Hss & T & _ & M & N).
  assert (Ls : length idxs = length ss) by (eapply Forall2_length; exact Hss).
  destruct N as [[-> ->]|[Ne ((x & Hx) & _)]].
  { rewrite <- Li in Hm. cbn in Hm. discriminate Hm. }
  assert (Em : m = Val.NpFloat64 (Spec.arithmetic_mean (map mean_dice ss))).
  { rewrite Hx in Hm. cbn in Hm. injection Hm as <-.
    unfold Spec.arithmetic_mean. rewrite length_map, <- Ls, Li.
    rewrite Hx in M. cbn in M. rewrite M. reflexivity. }
  assert (Ea : w5 = w2 /\
               a = if auc
                   then Some (Val.metric_auc_roc (auc_logits ss) (auc_labels ss) nc)
                   else None).
  { destruct auc.
    - apply bind_Ok_inv in Ha as (a0 & w7 & Ha0 & Ha).
      apply lift_Ok_inv in Ha0 as [Ha0 ->]. cbn in Ha. injection Ha as <- <-.
      split; [reflexivity|].
      destruct (loop_auc_inv env ds pd writer sd idxs ss 0 Val.locals_init st
                  w0 w2 Hss (fun _ => eq_refl) Hl' Ne) as [A B].
      unfold Val.auc_value in Ha0. rewrite A, B in Ha0. cbn in Ha0.
      injection Ha0 as <-. reflexivity.
    - cbn in Ha. injection Ha as <- <-. auto. }
  destruct Ea as [-> ->].
  exists idxs, ss.
  assert (W0 : Val.trace w0
               = Val.trace w
                 ++ (if pd then [Val.LogStart (length ds)
                                    (Val.sampler_len env (length ds) 1 false)]
                     else [])).
  { destruct pd; cbn in H0; injection H0 as _ <-; cbn [Val.trace];
      [reflexivity|rewrite app_nil_r; reflexivity]. }
  subst m. destruct pd.
  - apply bind_Ok_inv in H1 as (l0 & w7 & Hl0 & H1).
    apply lift_Ok_inv in Hl0 as [_ ->].
    unfold bind, Val.emit in H1. injection H1 as _ <-. cbn [Val.trace].
    eexists l0, _. split; [exact Hb|]. split; [exact Hss|]. split; [exact Ne|].
    split.
    + rewrite T, W0. cbn [Val.float_of].
      rewrite <- !app_assoc. destruct auc; reflexivity.
    + destruct auc; reflexivity.
  - cbn in H1. injection H1 as _ <-.
    exists 0%float, []. split; [exact Hb|]. split; [exact Hss|]. split; [exact Ne|].
    split.
    + rewrite T, W0, !app_nil_r. reflexivity.
    + destruct auc; reflexivity.
Qed.

(** Under any number of ranks: a returning run has visited the samples of
    its own shard, [ceil(N / nranks)] of them, once each in the sampler's
    order, and ['mdice'] is the arithmetic mean over that shard. *)
Theorem evaluate_on_a_shard (env : Val.ParallelEnv)
        (ds : list (Val.tensor * Val.tensor)) (nc nw : nat) (pd auc : bool)
        (writer : option unit) (sd : option string) (w w' : Val.world)
        (d : gmap string Val.pynum) :
  Val.evaluate env ds nc nw pd auc writer sd w = Ok (d, w') ->
  exists (idxs : list nat) (ss : list (Val.tensor * Val.tensor)),
    Val.sampler_iter env (length ds) 1 false = Ok (map (fun i => [i]) idxs) /\
    Forall2 (fun i s => ds !! i = Some s) idxs ss /\
    length ss = Val.ceil_div (length ds) (Val.nranks env) /\
    ss <> [] /\
    inferences (Val.trace w') = inferences (Val.trace w) ++ map im_of ss /\
    getitems (Val.trace w') = getitems (Val.trace w) ++ idxs /\
    d !! "mdice" = Some (Val.NpFloat64 (Spec.arithmetic_mean (map mean_dice ss))).
Proof.
  intros R.
  apply evaluate_inv in R as (idxs & ss & Hb & Li & Ne & Hss & I & G & _ & _ & D).
  exists idxs, ss. split; [exact Hb|]. split; [exact Hss|].
  assert (Ls : length idxs = length ss) by (eapply Forall2_length; exact Hss).
  split; [rewrite <- Ls, Li; apply sampler_len_num_samples|].
  split; [intros ->; destruct idxs; [congruence|discriminate Ls]|].
  split; [exact I|]. split; [exact G|].
  destruct D as [[_ ->]|[_ [a ->]]].
  - apply lookup_singleton_eq.
  - rewrite lookup_insert_ne by discriminate. apply lookup_singleton_eq.
Qed.

Lemma run_files_None (ss : list (Val.tensor * Val.tensor)) :
  forall (it : nat) (fs : gmap string Val.array), run_files None it ss fs = fs.
Proof. induction ss as [|s ss IH]; intros it fs; [reflexivity|]. apply IH. Qed.

(** Without [save_dir] a returning run has written no file and called
    [np.save] not once. *)
Theorem evaluate_without_save_dir (env : Val.ParallelEnv)
        (ds : list (Val.tensor * Val.tensor)) (nc nw : nat) (pd auc : bool)
        (writer : option unit) (w w' : Val.world) (d : gmap string Val.pynum) :
  Val.evaluate env ds nc nw pd auc writer None w = Ok (d, w') ->
  Val.files w' = Val.files w /\ saves (Val.trace w') = saves (Val.trace w).
Proof.
  intros R.
  apply evaluate_inv in R as (idxs & ss & _ & _ & _ & _ & _ & _ & S & Fi & _).
  rewrite Fi, S, run_files_None, app_nil_r. auto.
Qed.

Lemma run_files_other (dir : string) (p : string)
      (ss : list (Val.tensor * Val.tensor)) :
  (forall (i : nat) (name : string), p <> npy_path dir i name) ->
  forall (it : nat) (fs : gmap string Val.array),
    run_files (Some dir) it ss fs !! p = fs !! p.
Proof.
  intros Hp. induction ss as [|s ss IH]; intros it fs; [reflexivity|].
  cbn [run_files]. rewrite IH. unfold iter_files.
  rewrite pred_path_npy, label_path_npy, img_path_npy.
  rewrite !lookup_insert_ne; [reflexivity|..]; intros E; symmetry in E;
    exact (Hp _ _ E).
Qed.

(** With [save_dir], the files a run leaves changed are among those named
    [{save_dir}/{i}_{name}]: any other path holds what it held before. *)
Theorem evaluate_files_frame (env : Val.ParallelEnv)
        (ds : list (Val.tensor * Val.tensor)) (nc nw : nat) (pd auc : bool)
        (writer : option unit) (dir : string) (w w' : Val.world)
        (d : gmap string Val.pynum) (p : string) :
  Val.evaluate env ds nc nw pd auc writer (Some dir) w = Ok (d, w') ->
  (forall (i : nat) (name : string), p <> npy_path dir i name) ->
  Val.np_load w' p = Val.np_load w p.
Proof.
  intros R Hp.
  apply evaluate_inv in R as (idxs & ss & _ & _ & _ & _ & _ & _ & _ & Fi & _).
  unfold Val.np_load. rewrite Fi. apply run_files_other. exact Hp.
Qed.

(** A sample whose list of losses is empty ends the run: [sum([])] is the
    int 0, which has no [numpy]. Here for the first sample of a
    single-process run. *)
Theorem evaluate_empty_loss_list (env : Val.ParallelEnv)
        (s : Val.tensor * Val.tensor) (rest : list (Val.tensor * Val.tensor))
        (nc nw : nat) (pd auc : bool) (writer : option unit)
        (sd : option string) (w : Val.world) :
  Val.nranks env = 1%nat ->
  loss_of s = [] ->
  Val.evaluate env (s :: rest) nc nw pd auc writer sd w = Raise AttributeError.
Proof.
  intros E L. unfold Val.evaluate.
  rewrite (sampler_iter_single env (length (s :: rest)) E).
  cbn [length seq map Val.loop]. unfold bind at 1.
  assert (W0 : exists w1,
             (if pd
              then Val.emit (Val.LogStart (S (length rest))
                               (Val.sampler_len env (S (length rest)) 1 false))
              else ret tt) w = Ok (tt, w1))
    by (destruct pd; eexists; reflexivity).
  destruct W0 as (w1 & ->). unfold bind at 1. cbn [lift].
  unfold bind at 1. cbn [Val.loop]. unfold bind at 1.
  rewrite (iteration_eq env (s :: rest) pd auc writer sd 0 0
             Val.locals_init w1 s eq_refl).
  rewrite L. reflexivity.
Qed.

(** With [auc_roc] on, the value under ['auc_roc'] is [metric.auc_roc] of the
    softmaxed logits and of the labels of the visited samples, collected in
    the order of the iterations, with the dataset's number of classes. *)
Theorem evaluate_auc_value (env : Val.ParallelEnv)
        (ds : list (Val.tensor * Val.tensor)) (nc nw : nat) (pd : bool)
        (writer : option unit) (sd : option string) (w w' : Val.world)
        (d : gmap string Val.pynum) :
  Val.evaluate env ds nc nw pd true writer sd w = Ok (d, w') ->
  exists (idxs : list nat) (ss : list (Val.tensor * Val.tensor)),
    Val.sampler_iter env (length ds) 1 false = Ok (map (fun i => [i]) idxs) /\
    Forall2 (fun i s => ds !! i = Some s) idxs ss /\
    d !! "auc_roc"
    = Some (Val.metric_auc_roc (auc_logits ss) (auc_labels ss) nc).
Proof.
  intros R.
  apply evaluate_full_inv in R as (idxs & ss & l0 & cda & Hb & Hss & _ & _ & ->).
  exists idxs, ss. split; [exact Hb|]. split; [exact Hss|].
  apply lookup_insert_eq.
Qed.

Lemma progbar_updates_app (a b : list Val.event) :
  progbar_updates (a ++ b) = progbar_updates a ++ progbar_updates b.
Proof.
  induction a as [|e a IH]; [reflexivity|]. destruct e; cbn; rewrite IH; reflexivity.
Qed.

Lemma logged_app (a b : list Val.event) : logged (a ++ b) = logged a ++ logged b.
Proof.
  induction a as [|e a IH]; [reflexivity|]. destruct e; cbn; rewrite IH; reflexivity.
Qed.

Lemma progbar_updates_run_trace (env : Val.ParallelEnv) (pd : bool)
      (sd : option string) (idxs : list nat) (ss : list (Val.tensor * Val.tensor)) :
  length idxs = length ss ->
  forall it,
    progbar_updates (run_trace env pd sd it idxs ss)
    = if (Val.local_rank env =? 0)%nat && pd then seq (S it) (length ss) else [].
Proof.
  revert ss. induction idxs as [|i idxs IH]; intros [|s ss] L it; try discriminate.
  - destruct ((Val.local_rank env =? 0)%nat && pd); reflexivity.
  - cbn [run_trace]. rewrite progbar_updates_app, IH by (injection L; auto).
    unfold iter_trace, iter_saves.
    destruct sd, ((Val.local_rank env =? 0)%nat && pd); cbn;
      rewrite ?Nat.add_1_r; reflexivity.
Qed.

Lemma logged_run_trace (env : Val.ParallelEnv) (pd : bool)
      (sd : option string) (idxs : list nat) (ss : list (Val.tensor * Val.tensor)) :
  length idxs = length ss ->
  forall it,
    logged (run_trace env pd sd it idxs ss)
    = match sd with
      | Some _ => map Val.LogSaved (seq it (length ss))
      | None => []
      end.
Proof.
  revert ss. induction idxs as [|i idxs IH]; intros [|s ss] L it; try discriminate.
  - destruct sd; reflexivity.
  - cbn [run_trace]. rewrite logged_app, IH by (injection L; auto).
    unfold iter_trace, iter_saves.
    destruct sd, ((Val.local_rank env =? 0)%nat && pd); reflexivity.
Qed.

(** The progress bar is driven on rank 0 with [print_detail] only: there a
    returning run of n iterations has updated it to 1, 2, ..., n; on any
    other rank, or without [print_detail], not at all. *)
Theorem evaluate_progress_bar (env : Val.ParallelEnv)
        (ds : list (Val.tensor * Val.tensor)) (nc nw : nat) (pd auc : bool)
        (writer : option unit) (sd : option string) (w w' : Val.world)
        (d : gmap string Val.pynum) :
  Val.evaluate env ds nc nw pd auc writer sd w = Ok (d, w') ->
  progbar_updates (Val.trace w')
  = progbar_updates (Val.trace w)
    ++ (if (Val.local_rank env =? 0)%nat && pd
        then seq 1 (Val.sampler_len env (length ds) 1 false)
        else []).
Proof.
  intros R. pose proof R as R'.
  apply evaluate_inv in R' as (idxs' & ss' & Hb' & Li & _ & Hss' & _).
  apply evaluate_full_inv in R as (idxs & ss & l0 & cda & Hb & Hss & _ & T & _).
  rewrite Hb in Hb'. injection Hb' as Hb'.
  assert (Ls : length idxs = length ss) by (eapply Forall2_length; exact Hss).
  assert (Ln : length ss = Val.sampler_len env (length ds) 1 false).
  { rewrite <- Li, <- Ls. apply (f_equal length) in Hb'.
    rewrite !length_map in Hb'. exact Hb'. }
  rewrite T, !progbar_updates_app.
  rewrite (progbar_updates_run_trace env pd sd idxs ss Ls), Ln.
  destruct pd; cbn [progbar_updates app]; rewrite app_nil_r; reflexivity.
Qed.

(** What a returning run sends to the logger. With [print_detail]: the
    start line with the size of the whole dataset and the number of
    iterations, and at the end the summary, whose image count is again the
    size of the whole dataset and whose Dice is the returned ['mdice'], and
    the per-class Dice. The line on saved files comes once per iteration
    whenever [save_dir] is given, with or without [print_detail]. *)
Theorem evaluate_log_lines (env : Val.ParallelEnv)
        (ds : list (Val.tensor * Val.tensor)) (nc nw : nat) (pd auc : bool)
        (writer : option unit) (sd : option string) (w w' : Val.world)
        (d : gmap string Val.pynum) :
  Val.evaluate env ds nc nw pd auc writer sd w = Ok (d, w') ->
  exists (m loss0 : float) (flag : bool) (cda : list float),
    d !! "mdice" = Some (Val.NpFloat64 m) /\
    logged (Val.trace w')
    = logged (Val.trace w)
      ++ (if pd then [Val.LogStart (length ds)
                                   (Val.sampler_len env (length ds) 1 false)]
          else [])
      ++ match sd with
         | Some _ =>
             map Val.LogSaved (seq 0 (Val.sampler_len env (length ds) 1 false))
         | None => []
         end
      ++ (if pd then [Val.LogSummary (length ds) m loss0 flag; Val.LogClassDice cda]
          else []).
Proof.
  intros R. pose proof R as R'.
  apply evaluate_inv in R' as (idxs' & ss' & Hb' & Li & _ & Hss' & _).
  apply evaluate_full_inv in R as (idxs & ss & l0 & cda & Hb & Hss & _ & T & ->).
  rewrite Hb in Hb'. injection Hb' as Hb'.
  assert (Ls : length idxs = length ss) by (eapply Forall2_length; exact Hss).
  assert (Ln : length ss = Val.sampler_len env (length ds) 1 false).
  { rewrite <- Li, <- Ls. apply (f_equal length) in Hb'.
    rewrite !length_map in Hb'. exact Hb'. }
  eexists (Spec.arithmetic_mean (map mean_dice ss)), l0, _, cda. split.
  - destruct auc.
    + rewrite lookup_insert_ne by discriminate. apply lookup_singleton_eq.
    + apply lookup_singleton_eq.
  - rewrite T, !logged_app.
    rewrite (logged_run_trace env pd sd idxs ss Ls), Ln.
    destruct pd; reflexivity.
Qed.

(** The result of a returning run depends on the environment, the dataset,
    the number of classes and [auc_roc] only: not on [num_workers], on
    [print_detail], on [writer], on [save_dir] or on what was on the disk. *)
Theorem evaluate_result_independent (env : Val.ParallelEnv)
        (ds : list (Val.tensor * Val.tensor)) (nc nw1 nw2 : nat)
        (pd1 pd2 auc : bool) (writer1 writer2 : option unit)
        (sd1 sd2 : option string) (w1 w2 w1' w2' : Val.world)
        (d1 d2 : gmap string Val.pynum) :
  Val.evaluate env ds nc nw1 pd1 auc writer1 sd1 w1 = Ok (d1, w1') ->
  Val.evaluate env ds nc nw2 pd2 auc writer2 sd2 w2 = Ok (d2, w2') ->
  d1 = d2.
Proof.
  intros R1 R2.
  apply evaluate_full_inv in R1 as (i1 & s1 & ? & ? & Hb1 & Hs1 & _ & _ & ->).
  apply evaluate_full_inv in R2 as (i2 & s2 & ? & ? & Hb2 & Hs2 & _ & _ & ->).
  rewrite Hb1 in Hb2. injection Hb2 as Hb2.
  assert (Ei : i1 = i2).
  { clear -Hb2. revert i2 Hb2.
    induction i1 as [|i l IH]; intros [|j idxs] H; try discriminate; [reflexivity|].
    cbn in H. injection H as -> H. f_equal. apply IH. exact H. }
  subst i2.
  rewrite (Forall2_lookup_functional ds i1 s1 s2 Hs1 Hs2). reflexivity.
Qed.

End EvaluateMore.

(** * More runs on the small framework *)

Lemma evaluate_on_a_shard_witness :
  exists (idxs : list nat) (ss : list (nat * nat)),
    Val.sampler_iter (toy_env 2 1) (length (toy_dataset 3)) 1 false
    = Ok (map (fun i => [i]) idxs) /\
    Forall2 (fun i s => toy_dataset 3 !! i = Some s) idxs ss /\
    length ss = Val.ceil_div (length (toy_dataset 3)) (Val.nranks (toy_env 2 1)) /\
    ss <> [] /\
    inferences (Val.trace
                  (final_world
                     (Val.evaluate (F:=toy) (toy_env 2 1) (toy_dataset 3) 2 0
                                   false false None None world0)))
    = inferences (Val.trace world0) ++ map (im_of (F:=toy)) ss /\
    getitems (Val.trace
                (final_world
                   (Val.evaluate (F:=toy) (toy_env 2 1) (toy_dataset 3) 2 0
                                 false false None None world0)))
    = getitems (Val.trace world0) ++ idxs /\
    default ∅ (final_value
                 (Val.evaluate (F:=toy) (toy_env 2 1) (toy_dataset 3) 2 0
                               false false None None world0)) !! "mdice"
    = Some (Val.NpFloat64
              (Spec.arithmetic_mean (map (mean_dice (F:=toy)) ss))).
Proof.
  apply (evaluate_on_a_shard (F:=toy) (toy_env 2 1) (toy_dataset 3) 2 0
           false false None None world0).
  apply is_ok_final. vm_compute. reflexivity.
Defined.

Lemma evaluate_without_save_dir_witness :
  Val.files (final_world
               (Val.evaluate (F:=toy) (toy_env 1 0) (toy_dataset 2) 2 0
                             true false None None world0))
  = Val.files world0 /\
  saves (Val.trace
           (final_world
              (Val.evaluate (F:=toy) (toy_env 1 0) (toy_dataset 2) 2 0
                            true false None None world0)))
  = saves (Val.trace world0).
Proof.
  apply (evaluate_without_save_dir (F:=toy) (toy_env 1 0) (toy_dataset 2) 2 0
           true false None world0 _
           (default ∅ (final_value
                         (Val.evaluate (F:=toy) (toy_env 1 0) (toy_dataset 2) 2 0
                                       true false None None world0)))).
  apply is_ok_final. vm_compute. reflexivity.
Defined.

Lemma evaluate_files_frame_witness :
  Val.np_load (final_world
                 (Val.evaluate (F:=toy) (toy_env 1 0) (toy_dataset 2) 2 0
                               false false None (Some "out") world0))
              "notes.txt"
  = Val.np_load world0 "notes.txt".
Proof.
  apply (evaluate_files_frame (F:=toy) (toy_env 1 0) (toy_dataset 2) 2 0
           false false None "out" world0 _
           (default ∅ (final_value
                         (Val.evaluate (F:=toy) (toy_env 1 0) (toy_dataset 2) 2 0
                                       false false None (Some "out") world0)))).
  - apply is_ok_final. vm_compute. reflexivity.
  - intros i name E. discriminate E.
Defined.

Lemma evaluate_empty_loss_list_witness :
  Val.evaluate (F:=toy_lossless) (toy_env 1 0) [(0%nat, 50%nat); (1%nat, 51%nat)]
               2 0 true false None None (@Val.Build_world toy_lossless [] ∅)
  = Raise AttributeError.
Proof.
  apply (evaluate_empty_loss_list (F:=toy_lossless) (toy_env 1 0)
           (0%nat, 50%nat) [(1%nat, 51%nat)] 2 0 true false None None (@Val.Build_world toy_lossless [] ∅)).
  - reflexivity.
  - reflexivity.
Defined.

Lemma evaluate_auc_value_witness :
  exists (idxs : list nat) (ss : list (nat * nat)),
    Val.sampler_iter (toy_env 1 0) (length (toy_dataset 2)) 1 false
    = Ok (map (fun i => [i]) idxs) /\
    Forall2 (fun i s => toy_dataset 2 !! i = Some s) idxs ss /\
    default ∅ (final_value
                 (Val.evaluate (F:=toy) (toy_env 1 0) (toy_dataset 2) 2 0
                               false true None None world0)) !! "auc_roc"
    = Some (@Val.metric_auc_roc toy (auc_logits (F:=toy) ss)
                               (auc_labels (F:=toy) ss) 2).
Proof.
  apply (evaluate_auc_value (F:=toy) (toy_env 1 0) (toy_dataset 2) 2 0
           false None None world0
           (final_world
              (Val.evaluate (F:=toy) (toy_env 1 0) (toy_dataset 2) 2 0
                            false true None None world0))).
  apply is_ok_final. vm_compute. reflexivity.
Defined.

Lemma evaluate_progress_bar_witness :
  progbar_updates
    (Val.trace (final_world
                  (Val.evaluate (F:=toy) (toy_env 1 0) (toy_dataset 2) 2 0
                                true false None None world0)))
  = progbar_updates (Val.trace world0)
    ++ (if (Val.local_rank (toy_env 1 0) =? 0)%nat && true
        then seq 1 (Val.sampler_len (toy_env 1 0) (length (toy_dataset 2)) 1 false)
        else []).
Proof.
  apply (evaluate_progress_bar (F:=toy) (toy_env 1 0) (toy_dataset 2) 2 0
           true false None None world0 _
           (default ∅ (final_value
                         (Val.evaluate (F:=toy) (toy_env 1 0) (toy_dataset 2) 2 0
                                       true false None None world0)))).
  apply is_ok_final. vm_compute. reflexivity.
Defined.

Lemma evaluate_log_lines_witness :
  exists (m loss0 : float) (flag : bool) (cda : list float),
    default ∅ (final_value
                 (Val.evaluate (F:=toy) (toy_env 2 0) (toy_dataset 3) 2 0
                               true false None (Some "out") world0)) !! "mdice"
    = Some (Val.NpFloat64 m) /\
    logged (Val.trace
              (final_world
                 (Val.evaluate (F:=toy) (toy_env 2 0) (toy_dataset 3) 2 0
                               true false None (Some "out") world0)))
    = logged (Val.trace world0)
      ++ (if true
          then [Val.LogStart (F:=toy) (length (toy_dataset 3))
                  (Val.sampler_len (toy_env 2 0) (length (toy_dataset 3)) 1 false)]
          else [])
      ++ match Some "out" with
         | Some _ =>
             map (Val.LogSaved (F:=toy))
                 (seq 0 (Val.sampler_len (toy_env 2 0) (length (toy_dataset 3))
                                         1 false))
         | None => []
         end
      ++ (if true
          then [Val.LogSummary (F:=toy) (length (toy_dataset 3)) m loss0 flag;
                Val.LogClassDice (F:=toy) cda]
          else []).
Proof.
  apply (evaluate_log_lines (F:=toy) (toy_env 2 0) (toy_dataset 3) 2 0
           true false None (Some "out") world0).
  apply is_ok_final. vm_compute. reflexivity.
Defined.

Lemma evaluate_result_independent_witness :
  default ∅ (final_value
               (Val.evaluate (F:=toy) (toy_env 1 0) (toy_dataset 2) 2 0
                             true true None (Some "out") world0))
  = default ∅ (final_value
                 (Val.evaluate (F:=toy) (toy_env 1 0) (toy_dataset 2) 2 4
                               false true (Some tt) None world0)).
Proof.
  apply (evaluate_result_independent (F:=toy) (toy_env 1 0) (toy_dataset 2) 2 0 4
           true false true None (Some tt) (Some "out") None world0 world0
           (final_world
              (Val.evaluate (F:=toy) (toy_env 1 0) (toy_dataset 2) 2 0
                            true true None (Some "out") world0))
           (final_world
              (Val.evaluate (F:=toy) (toy_env 1 0) (toy_dataset 2) 2 4
                            false true (Some tt) None world0))).
  - apply is_ok_final. vm_compute. reflexivity.
  - apply is_ok_final. vm_compute. reflexivity.
Defined.
